(** * Perplexity MCP server (sonar): the tool-call dispatcher, the upstream
    client, the streamable-HTTP session table and the two entry points.

    The program is a Node.js module.  Its functions are embedded here as Rocq
    functions over a small model of the JavaScript values they handle:
    JSON data, completion records (normal or thrown), and a log of the
    [fetch] calls issued. *)

From Stdlib Require Import Ascii.
From stdpp Require Import gmap strings list fin_maps pretty.

Set Default Proof Using "Type".
Set Warnings "-register-all".

(** ** JavaScript values *)

Module Js.

(** What [JSON.parse] can build, plus [undefined].  A number is carried by
    its canonical rendering (what [String(n)] gives, so both zeroes are
    ["0"]): the program only ever stringifies numbers or tests their
    truthiness.  An object is the list of its own properties. *)
Inductive JsVal : Type :=
| JUndefined
| JNull
| JBool (b : bool)
| JNum (lit : string)
| JStr (s : string)
| JArr (elems : list JsVal)
| JObj (props : list (string * JsVal)).

(** Values that can be thrown: instances of [Error] (with their [name] and
    [message]) and anything else, carried by its [String(...)] rendering. *)
Inductive Thrown : Type :=
| ErrorObj (name message : string)
| NonError (rendered : string).

(** [new Error(msg)] and the engine's [TypeError]. *)
Definition Error (msg : string) : Thrown := ErrorObj "Error" msg.
Definition TypeError (msg : string) : Thrown := ErrorObj "TypeError" msg.

(** Completion of an evaluation: a value, or a throw. *)
Inductive Completion (A : Type) : Type :=
| Normal (a : A)
| Abrupt (e : Thrown).
Arguments Normal {A} a.
Arguments Abrupt {A} e.

Definition LF : string := String (ascii_of_nat 10) EmptyString.

(** [ToBoolean]. *)
Definition ToBoolean (v : JsVal) : bool :=
  match v with
  | JUndefined | JNull => false
  | JBool b => b
  | JNum lit => negb (bool_decide (lit = "0") || bool_decide (lit = "NaN"))
  | JStr s => negb (bool_decide (s = ""))
  | JArr _ | JObj _ => true
  end.

(** [Array.isArray]. *)
Definition isArray (v : JsVal) : bool :=
  match v with
  | JArr _ => true
  | _ => false
  end.

(** The elements of an array (none for any other value). *)
Definition elements (v : JsVal) : list JsVal :=
  match v with
  | JArr elems => elems
  | _ => []
  end.

(** Own property of an object. *)
Fixpoint own_property (props : list (string * JsVal)) (key : string)
  : option JsVal :=
  match props with
  | [] => None
  | (k, v) :: rest => if bool_decide (k = key) then Some v
                      else own_property rest key
  end.

(** [v.key] for the property names the program reads ([choices], [message],
    [content], [citations], [messages]): none of them is inherited from a
    prototype, so only a plain object can answer; reading a property of
    [undefined] or [null] throws (V8's wording). *)
Definition Get (v : JsVal) (key : string) : Completion JsVal :=
  match v with
  | JUndefined =>
      Abrupt (TypeError ("Cannot read properties of undefined (reading '"
                         +:+ key +:+ "')"))
  | JNull =>
      Abrupt (TypeError ("Cannot read properties of null (reading '"
                         +:+ key +:+ "')"))
  | JObj props => Normal (default JUndefined (own_property props key))
  | _ => Normal JUndefined
  end.

(** [v[i]] for an integer index [i]: an array element, a one-character
    string, or an object's own property named by the index. *)
Definition GetIndex (v : JsVal) (i : nat) : Completion JsVal :=
  match v with
  | JUndefined =>
      Abrupt (TypeError ("Cannot read properties of undefined (reading '"
                         +:+ pretty i +:+ "')"))
  | JNull =>
      Abrupt (TypeError ("Cannot read properties of null (reading '"
                         +:+ pretty i +:+ "')"))
  | JArr elems => Normal (default JUndefined (elems !! i))
  | JStr s => Normal (match String.get i s with
                      | Some c => JStr (String c EmptyString)
                      | None => JUndefined
                      end)
  | JObj props => Normal (default JUndefined (own_property props (pretty i)))
  | _ => Normal JUndefined
  end.

Definition has_own (props : list (string * JsVal)) (key : string) : bool :=
  bool_decide (is_Some (own_property props key)).

(** [Array.prototype.join] over already rendered elements. *)
Fixpoint join (sep : string) (parts : list string) : string :=
  match parts with
  | [] => ""
  | [p] => p
  | p :: rest => p +:+ sep +:+ join sep rest
  end.

(** [ToString], which is also what [ToPrimitive] gives on these values.
    A plain object renders through [Object.prototype.toString] unless an
    own [toString] property (never callable in parsed JSON) shadows it, in
    which case no method yields a primitive and the conversion throws.  An
    array renders by [join(",")], whose [undefined] and [null] elements
    are empty. *)
Fixpoint ToString (v : JsVal) : Completion string :=
  match v with
  | JUndefined => Normal "undefined"
  | JNull => Normal "null"
  | JBool true => Normal "true"
  | JBool false => Normal "false"
  | JNum lit => Normal lit
  | JStr s => Normal s
  | JArr elems =>
      let fix render (l : list JsVal) : Completion (list string) :=
        match l with
        | [] => Normal []
        | e :: rest =>
            match (match e with
                   | JUndefined | JNull => Normal ""
                   | _ => ToString e
                   end) with
            | Abrupt err => Abrupt err
            | Normal s =>
                match render rest with
                | Abrupt err => Abrupt err
                | Normal ss => Normal (s :: ss)
                end
            end
        end in
      match render elems with
      | Abrupt err => Abrupt err
      | Normal parts => Normal (join "," parts)
      end
  | JObj props =>
      if has_own props "toString"
      then Abrupt (TypeError "Cannot convert object to primitive value")
      else Normal "[object Object]"
  end.

(** [String(e)] of a thrown value ([Error.prototype.toString]). *)
Definition String_of_thrown (e : Thrown) : string :=
  match e with
  | ErrorObj name message =>
      if bool_decide (name = "") then message
      else if bool_decide (message = "") then name
      else name +:+ ": " +:+ message
  | NonError rendered => rendered
  end.

End Js.

(** ** Effects: completions, and the log of [fetch] calls *)

Module Effects.
Import Js.

#[export] Instance Completion_ret : MRet Completion := @Normal.
#[export] Instance Completion_bind : MBind Completion :=
  fun A B (f : A -> Completion B) (c : Completion A) =>
    match c with
    | Normal a => f a
    | Abrupt e => Abrupt e
    end.

(** The JSON body of the upstream request, before [JSON.stringify]. *)
Record RequestBody : Type := { model : string; messages : JsVal }.

Record FetchRequest : Type := {
  url : string;
  method : string;
  headers : list (string * string);
  body : RequestBody
}.

(** What the program reads of a [fetch] response.  [text] and [json] are
    the completions of awaiting [response.text()] and [response.json()]. *)
Record Response : Type := {
  ok : bool;
  status : nat;
  statusText : string;
  text : Completion string;
  json : Completion JsVal
}.

(** An asynchronous computation of the program: it extends the log of
    upstream calls and completes normally or by a throw (a rejected
    promise). *)
Definition M (A : Type) : Type :=
  list FetchRequest -> Completion A * list FetchRequest.

#[export] Instance M_ret : MRet M := fun A (a : A) log => (Normal a, log).
#[export] Instance M_bind : MBind M :=
  fun A B (f : A -> M B) (m : M A) log =>
    match m log with
    | (Normal a, log') => f a log'
    | (Abrupt e, log') => (Abrupt e, log')
    end.

Definition throw {A : Type} (e : Thrown) : M A := fun log => (Abrupt e, log).

Definition lift {A : Type} (c : Completion A) : M A := fun log => (c, log).

(** [try { body } catch (e) { handler e }]. *)
Definition try_catch {A : Type} (body : M A) (handler : Thrown -> M A) : M A :=
  fun log =>
    match body log with
    | (Normal a, log') => (Normal a, log')
    | (Abrupt e, log') => handler e log'
    end.

(** Run from an empty log. *)
Definition run {A : Type} (m : M A) : Completion A * list FetchRequest := m [].

End Effects.

(** ** The upstream client and the dispatcher *)

Module Server.
Import Js Effects.

(** One text item of a tool response.  The program stores whatever the
    upstream client returned in [text], so the field holds a value. *)
Record ContentItem : Type := { type : string; text : JsVal }.

Record ToolResponse : Type := { content : list ContentItem; isError : bool }.

(** [request.params] of a tool call, as the SDK's [CallToolRequestSchema]
    hands it over: [name] is a string, [arguments] is [undefined] when the
    caller sent none. *)
Record CallToolParams : Type := { name : string; arguments : JsVal }.

Section WithEnvironment.

(** The API key read at start-up, and the network: what [fetch] answers to
    a request (a response, or a rejection). *)
Variable PERPLEXITY_API_KEY : string.
Variable network : FetchRequest -> Completion Response.

Definition fetch (req : FetchRequest) : M Response :=
  fun log => (network req, log ++ [req]).

(** [lhs += s] for a string [s]: string concatenation after [ToPrimitive]. *)
Definition add_string (lhs : JsVal) (s : string) : Completion JsVal :=
  p ← ToString lhs; mret (JStr (p +:+ s)).

(** [data.citations.forEach((citation, index) => { messageContent +=
    `[${index + 1}] ${citation}\n`; })], from [index] on. *)
Fixpoint forEach_citation (citations : list JsVal) (index : nat)
    (messageContent : JsVal) : Completion JsVal :=
  match citations with
  | [] => Normal messageContent
  | citation :: rest =>
      c ← ToString citation;
      messageContent' ←
        add_string messageContent
                   ("[" +:+ pretty (index + 1) +:+ "] " +:+ c +:+ LF);
      forEach_citation rest (S index) messageContent'
  end.

(** The request [performChatCompletion] sends. *)
Definition completion_request (messages : JsVal) (model : string)
  : FetchRequest :=
  let url := "https://api.perplexity.ai/chat/completions" in
  let body := {| Effects.model := model; Effects.messages := messages |} in
  {| url := url;
     method := "POST";
     headers := [("Content-Type", "application/json");
                 ("Authorization", "Bearer " +:+ PERPLEXITY_API_KEY)];
     body := body |}.

Definition performChatCompletion (messages : JsVal) (model : string)
  : M JsVal :=
  response ←
    try_catch
      (fetch (completion_request messages model))
      (fun error =>
         throw (Error ("Network error while calling Perplexity API: "
                       +:+ String_of_thrown error)));
  if negb (ok response) then
    errorText ←
      try_catch (lift (Effects.text response))
                (fun parseError => mret "Unable to parse error response");
    throw (Error ("Perplexity API error: " +:+ pretty (status response)
                  +:+ " " +:+ statusText response +:+ LF +:+ errorText))
  else
    data ←
      try_catch (lift (json response))
        (fun jsonError =>
           throw (Error ("Failed to parse JSON response from Perplexity API: "
                         +:+ String_of_thrown jsonError)));
    lift (choices ← Get data "choices";
          choice ← GetIndex choices 0;
          message ← Get choice "message";
          messageContent ← Get message "content";
          citations ← Get data "citations";
          if ToBoolean citations && isArray citations
             && bool_decide (0 < length (elements citations))
          then
            messageContent' ←
              add_string messageContent (LF +:+ LF +:+ "Citations:" +:+ LF);
            forEach_citation (elements citations) 0 messageContent'
          else mret messageContent).

Definition text_response (t : JsVal) (err : bool) : ToolResponse :=
  {| content := [{| type := "text"; text := t |}]; isError := err |}.

(** The [try] block of the handler registered for
    [CallToolRequestSchema]. *)
Definition CallToolBody (request : CallToolParams) : M ToolResponse :=
  let name := name request in
  let args := arguments request in
  if negb (ToBoolean args) then throw (Error "No arguments provided")
  else if bool_decide (name = "perplexity_ask") then
    messages ← lift (Get args "messages");
    if negb (isArray messages) then
      throw (Error "Invalid arguments for perplexity_ask: 'messages' must be an array")
    else
      result ← performChatCompletion messages "sonar-pro";
      mret (text_response result false)
  else if bool_decide (name = "perplexity_research") then
    messages ← lift (Get args "messages");
    if negb (isArray messages) then
      throw (Error "Invalid arguments for perplexity_research: 'messages' must be an array")
    else
      result ← performChatCompletion messages "sonar-deep-research";
      mret (text_response result false)
  else if bool_decide (name = "perplexity_reason") then
    messages ← lift (Get args "messages");
    if negb (isArray messages) then
      throw (Error "Invalid arguments for perplexity_reason: 'messages' must be an array")
    else
      result ← performChatCompletion messages "sonar-reasoning-pro";
      mret (text_response result false)
  else
    mret (text_response (JStr ("Unknown tool: " +:+ name)) true).

(** [error instanceof Error ? error.message : String(error)]. *)
Definition message_of (error : Thrown) : string :=
  match error with
  | ErrorObj _ message => message
  | NonError rendered => rendered
  end.

(** The handler: the [try] block and its [catch]. *)
Definition CallToolHandler (request : CallToolParams) : M ToolResponse :=
  try_catch (CallToolBody request)
    (fun error =>
       mret (text_response (JStr ("Error: " +:+ message_of error)) true)).

End WithEnvironment.

End Server.

(** ** The streamable-HTTP endpoint and its session table *)

Module Streamable.

(** Handles of the objects the handler creates: a server instance and the
    transport connected to it. *)
Record Session : Type := { transport : nat; server : nat }.

(** What [handleStreamable] reads of the request: the [mcp-session-id]
    header ([None] when the request has none) and the method. *)
Record IncomingMessage : Type := {
  mcp_session_id : option string;
  method : string
}.

(** What the handler writes on [res]: [statusCode] (200 until assigned) and
    the body given to [res.end], if it ended the response. *)
Record ServerResponse : Type := { statusCode : nat; ended : option string }.

Definition new_response : ServerResponse :=
  {| statusCode := 200; ended := None |}.

(** How a call of [handleStreamable] ends. *)
Inductive Handling : Type :=
| Answered (res : ServerResponse)
    (** the handler ended the response itself *)
| Delegated (session : Session)
    (** [session.transport.handleRequest(req, res)] *)
| Initialising (session : Session)
    (** a new server instance and transport, connected and given the
        request *).

(** The module's state: the session table, and the transports created so
    far, each with the server instance its callbacks captured. *)
Record State : Type := {
  streamableSessions : gmap string Session;
  transports : gmap nat nat;
  next_handle : nat
}.

Definition initial : State :=
  {| streamableSessions := ∅; transports := ∅; next_handle := 0 |}.

(** Truthiness of a header value or of [transport.sessionId]. *)
Definition truthy (s : option string) : bool :=
  match s with
  | Some v => negb (bool_decide (v = ""))
  | None => false
  end.

Definition handleStreamable (st : State) (req : IncomingMessage)
  : State * Handling :=
  let sessionId := mcp_session_id req in
  if truthy sessionId then
    match streamableSessions st !! default "" sessionId with
    | None =>
        (st, Answered {| statusCode := 404;
                         ended := Some "Session not found" |})
    | Some session => (st, Delegated session)
    end
  else if bool_decide (method req = "POST") then
    let serverInstance := next_handle st in
    let transport := S (next_handle st) in
    ({| streamableSessions := streamableSessions st;
        transports := <[transport := serverInstance]> (transports st);
        next_handle := S (S (next_handle st)) |},
     Initialising {| transport := transport; server := serverInstance |})
  else
    (st, Answered {| statusCode := 400; ended := Some "Invalid request" |}).

(** The [onsessioninitialized] callback given to a new transport. *)
Definition onsessioninitialized (transport serverInstance : nat)
    (sessionId : string) (sessions : gmap string Session)
  : gmap string Session :=
  <[sessionId := {| transport := transport; server := serverInstance |}]>
    sessions.

(** The [onclose] callback of a transport; [transport_sessionId] is the
    value of [transport.sessionId] when it runs. *)
Definition onclose (transport_sessionId : option string)
    (sessions : gmap string Session) : gmap string Session :=
  if truthy transport_sessionId
  then delete (default "" transport_sessionId) sessions
  else sessions.

(** What can happen to the module: a request reaches the [/mcp] handler,
    or the SDK fires one of the two callbacks of a transport. *)
Inductive Event : Type :=
| Request (req : IncomingMessage)
| SessionInitialized (transport : nat) (sessionId : string)
| Closed (transport : nat) (transport_sessionId : option string).

Definition with_sessions (st : State) (sessions : gmap string Session)
  : State :=
  {| streamableSessions := sessions;
     transports := transports st;
     next_handle := next_handle st |}.

(** A callback only exists for a transport the handler has created. *)
Definition step (st : State) (ev : Event) : State :=
  match ev with
  | Request req => fst (handleStreamable st req)
  | SessionInitialized t sessionId =>
      match transports st !! t with
      | Some serverInstance =>
          with_sessions st (onsessioninitialized t serverInstance sessionId
                              (streamableSessions st))
      | None => st
      end
  | Closed t transport_sessionId =>
      match transports st !! t with
      | Some _ =>
          with_sessions st (onclose transport_sessionId
                              (streamableSessions st))
      | None => st
      end
  end.

Definition run_events (st : State) (evs : list Event) : State :=
  foldl step st evs.

End Streamable.

(** ** The two entry points *)

Module Entry.
Import Js.

(** The transport [runServer] starts. *)
Inductive Mode : Type :=
| Stdio
| Http (port : JsVal).

(** The [options] object; a property never assigned is [undefined]. *)
Record Options : Type := { port : JsVal; stdio : JsVal }.

Definition no_options : Options := {| port := JUndefined; stdio := JUndefined |}.

End Entry.

(** The compiled JavaScript variant ([stdio] unless [--port] is given). *)
Module EntryJs.
Import Js Entry.

Section WithParseInt.

(** [parseInt(s, 10)], as the rendering of the number it returns. *)
Variable parseInt10 : string -> string.

(** The loop of [parseArgs] over the arguments from position [i] on. *)
Fixpoint parseArgs_loop (args : list string) (options : Options) : Options :=
  match args with
  | [] => options
  | arg :: rest =>
      if bool_decide (arg = "--port") && bool_decide (0 < length rest) then
        match rest with
        | next :: rest' =>
            parseArgs_loop rest' {| port := JNum (parseInt10 next);
                                    stdio := stdio options |}
        | [] => options
        end
      else parseArgs_loop rest options
  end.

(** [argv] is [process.argv]. *)
Definition parseArgs (argv : list string) : Options :=
  parseArgs_loop (drop 2 argv) no_options.

Definition runServer (argv : list string) : Mode :=
  let options := parseArgs argv in
  if ToBoolean (port options) then Http (port options) else Stdio.

End WithParseInt.
End EntryJs.

(** The TypeScript variant (HTTP unless [--stdio] is given). *)
Module EntryTs.
Import Js Entry.

Section WithParseInt.

Variable parseInt10 : string -> string.

Fixpoint parseArgs_loop (args : list string) (options : Options) : Options :=
  match args with
  | [] => options
  | arg :: rest =>
      if bool_decide (arg = "--port") && bool_decide (0 < length rest) then
        match rest with
        | next :: rest' =>
            parseArgs_loop rest' {| port := JNum (parseInt10 next);
                                    stdio := stdio options |}
        | [] => options
        end
      else if bool_decide (arg = "--stdio") then
        parseArgs_loop rest {| port := port options; stdio := JBool true |}
      else parseArgs_loop rest options
  end.

Definition parseArgs (argv : list string) : Options :=
  parseArgs_loop (drop 2 argv) no_options.

Definition runServer (argv : list string) : Mode :=
  let options := parseArgs argv in
  if ToBoolean (stdio options) then Stdio
  else
    let port := if ToBoolean (port options) then port options
                else JNum "8080" in
    Http port.

End WithParseInt.
End EntryTs.

(** ** Vocabulary of the specification *)

Module Spec.
Import Js Effects Server.

(** [needle] occurs in [hay]. *)
Definition includes (needle hay : string) : Prop :=
  exists pre post, hay = pre +:+ needle +:+ post.

(** [data.choices[0].message.content]. *)
Definition first_choice_content (data : JsVal) : Completion JsVal :=
  choices ← Get data "choices";
  choice ← GetIndex choices 0;
  message ← Get choice "message";
  Get message "content".

(** One line ["[i] <citation>\n"] per citation, the first numbered [i]. *)
Fixpoint citation_lines (i : nat) (citations : list string) : string :=
  match citations with
  | [] => ""
  | c :: rest =>
      "[" +:+ pretty i +:+ "] " +:+ c +:+ LF +:+ citation_lines (S i) rest
  end.

(** The body text an HTTP error message carries: the body, or the
    placeholder when reading it failed. *)
Definition error_body (response : Response) : string :=
  match Effects.text response with
  | Normal body => body
  | Abrupt _ => "Unable to parse error response"
  end.

(** The envelope as the specification words it: exactly one item of type
    "text" whose text is a string. *)
Definition string_envelope (r : ToolResponse) : Prop :=
  exists (s : string) (b : bool), r = text_response (JStr s) b.

(** The three registered tool names. *)
Definition registered (name : string) : Prop :=
  name = "perplexity_ask" \/ name = "perplexity_research"
  \/ name = "perplexity_reason".

(** The fixed model identifier of each tool. *)
Definition model_for (name : string) : string :=
  if bool_decide (name = "perplexity_ask") then "sonar-pro"
  else if bool_decide (name = "perplexity_research") then "sonar-deep-research"
  else "sonar-reasoning-pro".

(** The message of an argument-validation failure. *)
Definition invalid_arguments (name : string) : string :=
  "Invalid arguments for " +:+ name +:+ ": 'messages' must be an array".

Section Outcomes.

Variable PERPLEXITY_API_KEY : string.
Variable network : FetchRequest -> Completion Response.

Abbreviation complete := (performChatCompletion PERPLEXITY_API_KEY network).
Abbreviation sent := (completion_request PERPLEXITY_API_KEY).

(** How the [try] block of the handler ends. *)
Inductive body_outcome (req : CallToolParams) (log : list FetchRequest)
  : Completion ToolResponse * list FetchRequest -> Prop :=
| NoArguments :
    ToBoolean (arguments req) = false ->
    body_outcome req log (Abrupt (Error "No arguments provided"), log)
| UnknownTool :
    ToBoolean (arguments req) = true ->
    ~ registered (name req) ->
    body_outcome req log
      (Normal (text_response (JStr ("Unknown tool: " +:+ name req)) true), log)
| InvalidMessages messages :
    ToBoolean (arguments req) = true ->
    registered (name req) ->
    Get (arguments req) "messages" = Normal messages ->
    isArray messages = false ->
    body_outcome req log (Abrupt (Error (invalid_arguments (name req))), log)
| UpstreamFailed messages e :
    ToBoolean (arguments req) = true ->
    registered (name req) ->
    Get (arguments req) "messages" = Normal messages ->
    isArray messages = true ->
    complete messages (model_for (name req)) log =
      (Abrupt e, log ++ [sent messages (model_for (name req))]) ->
    body_outcome req log
      (Abrupt e, log ++ [sent messages (model_for (name req))])
| Completed messages result :
    ToBoolean (arguments req) = true ->
    registered (name req) ->
    Get (arguments req) "messages" = Normal messages ->
    isArray messages = true ->
    complete messages (model_for (name req)) log =
      (Normal result, log ++ [sent messages (model_for (name req))]) ->
    body_outcome req log
      (Normal (text_response result false),
       log ++ [sent messages (model_for (name req))]).

End Outcomes.

End Spec.

(** ** Concrete environments and requests *)

Module Examples.
Import Js Effects Server.

Definition api_key : string := "pplx-0000".

(** A successful upstream response with the JSON body [data]. *)
Definition answer (data : JsVal) : Response :=
  {| ok := true; status := 200; statusText := "OK";
     Effects.text := Normal "{}"; json := Normal data |}.

Definition answering (data : JsVal) : FetchRequest -> Completion Response :=
  fun _ => Normal (answer data).

(** [fetch] rejects. *)
Definition offline : FetchRequest -> Completion Response :=
  fun _ => Abrupt (TypeError "fetch failed").

(** A 429 whose body cannot be read, and a 401 whose body can. *)
Definition rate_limited : Response :=
  {| ok := false; status := 429; statusText := "Too Many Requests";
     Effects.text := Abrupt (TypeError "terminated");
     json := Abrupt (TypeError "terminated") |}.

Definition unauthorized : Response :=
  {| ok := false; status := 401; statusText := "Unauthorized";
     Effects.text := Normal "invalid api key";
     json := Abrupt (ErrorObj "SyntaxError" "Unexpected token i in JSON") |}.

(** A 200 whose body is not JSON. *)
Definition garbled : Response :=
  {| ok := true; status := 200; statusText := "OK";
     Effects.text := Normal "<html>";
     json := Abrupt (ErrorObj "SyntaxError" "Unexpected token < in JSON") |}.

(** [{"choices":[{"message":{"content":"C"}}],"citations":["a","b"]}] *)
Definition cited : JsVal :=
  JObj [("choices", JArr [JObj [("message", JObj [("content", JStr "C")])]]);
        ("citations", JArr [JStr "a"; JStr "b"])].

(** [{"choices":[{"message":{"content":"C"}}]}] *)
Definition uncited : JsVal :=
  JObj [("choices", JArr [JObj [("message", JObj [("content", JStr "C")])]])].

(** [{"choices":[{"message":{}}]}]: a first choice without content. *)
Definition no_content : JsVal :=
  JObj [("choices", JArr [JObj [("message", JObj [])]])].

(** [{"choices":[]}] *)
Definition no_choices : JsVal := JObj [("choices", JArr [])].

(** One user message. *)
Definition hello : JsVal :=
  JArr [JObj [("role", JStr "user"); ("content", JStr "hello")]].

Definition ask (arguments : JsVal) : CallToolParams :=
  {| name := "perplexity_ask"; arguments := arguments |}.

Definition ask_hello : CallToolParams := ask (JObj [("messages", hello)]).

(** A GET on [/mcp] whose [mcp-session-id] header has an empty value. *)
Definition empty_session_header : Streamable.IncomingMessage :=
  {| Streamable.mcp_session_id := Some "";
     Streamable.method := "GET" |}.

(** The first POST on [/mcp], without a session header. *)
Definition first_post : Streamable.IncomingMessage :=
  {| Streamable.mcp_session_id := None;
     Streamable.method := "POST" |}.

Definition is_digit (c : ascii) : bool :=
  (48 <=? nat_of_ascii c) && (nat_of_ascii c <=? 57).

Fixpoint all_digits (s : string) : bool :=
  match s with
  | EmptyString => true
  | String c rest => is_digit c && all_digits rest
  end.

(** [parseInt(s, 10)] on the inputs the examples use: a string of one to
    fifteen decimal digits that does not start with 0 denotes an integer
    whose rendering is the string itself.  Other inputs are outside the
    examples and are given ["NaN"] here. *)
Definition parseInt10_small (s : string) : string :=
  match s with
  | EmptyString => "NaN"
  | String c _ =>
      if all_digits s && negb (bool_decide (c = "0"%char))
         && bool_decide (String.length s <= 15)
      then s else "NaN"
  end.

End Examples.

(** ** The tool registry *)

Module Registry.
Import Js.

Record Tool : Type := {
  name : string;
  description : string;
  inputSchema : JsVal
}.

(** The [inputSchema] literal, which the three descriptors repeat. *)
Definition messages_schema : JsVal :=
  JObj [("type", JStr "object");
        ("properties",
         JObj [("messages",
                JObj [("type", JStr "array");
                      ("items",
                       JObj [("type", JStr "object");
                             ("properties",
                              JObj [("role",
                                     JObj [("type", JStr "string");
                                           ("description",
                                            JStr "Role of the message (e.g., system, user, assistant)")]);
                                    ("content",
                                     JObj [("type", JStr "string");
                                           ("description",
                                            JStr "The content of the message")])]);
                             ("required", JArr [JStr "role"; JStr "content"])]);
                      ("description", JStr "Array of conversation messages")])]);
        ("required", JArr [JStr "messages"])].

Definition PERPLEXITY_ASK_TOOL : Tool :=
  {| name := "perplexity_ask";
     description :=
       "Engages in a conversation using the Sonar API. " +:+
       "Accepts an array of messages (each with a role and content) " +:+
       "and returns a ask completion response from the Perplexity model.";
     inputSchema := messages_schema |}.

Definition PERPLEXITY_RESEARCH_TOOL : Tool :=
  {| name := "perplexity_research";
     description :=
       "Performs deep research using the Perplexity API. " +:+
       "Accepts an array of messages (each with a role and content) " +:+
       "and returns a comprehensive research response with citations.";
     inputSchema := messages_schema |}.

Definition PERPLEXITY_REASON_TOOL : Tool :=
  {| name := "perplexity_reason";
     description :=
       "Performs reasoning tasks using the Perplexity API. " +:+
       "Accepts an array of messages (each with a role and content) " +:+
       "and returns a well-reasoned response using the sonar-reasoning-pro model.";
     inputSchema := messages_schema |}.

(** The handler registered for [ListToolsRequestSchema]: its [tools]. *)
Definition ListToolsHandler : list Tool :=
  [PERPLEXITY_ASK_TOOL; PERPLEXITY_RESEARCH_TOOL; PERPLEXITY_REASON_TOOL].

End Registry.

(** ** The HTTP listener *)

Module HttpServer.
Import Streamable.

(** [handleSSE]: a new server instance and a new SSE transport bound to
    the response of this connection.  A failure of [connect] is caught and
    logged. *)
Definition handleSSE (st : State) : State * (nat * nat) :=
  let serverInstance := next_handle st in
  let transport := S (next_handle st) in
  ({| streamableSessions := streamableSessions st;
      transports := transports st;
      next_handle := S (S (next_handle st)) |},
   (serverInstance, transport)).

(** What the ['request'] listener does with a request. *)
Inductive Routed : Type :=
| SSEConnection (serverInstance transport : nat)
| StreamableRequest (handling : Handling)
| NotFound (statusCode : nat) (headers : list (string * string))
    (body : string).

(** The ['request'] listener of [startHttpServer]; [pathname] is
    [url.pathname] of the request's URL. *)
Definition on_request (st : State) (pathname : string) (req : IncomingMessage)
  : State * Routed :=
  if bool_decide (pathname = "/sse") then
    let r := handleSSE st in
    (fst r, SSEConnection (fst (snd r)) (snd (snd r)))
  else if bool_decide (pathname = "/mcp") then
    let r := handleStreamable st req in
    (fst r, StreamableRequest (snd r))
  else
    (st, NotFound 404 [("Content-Type", "text/plain")] "Not Found").

(** What can happen to a listening process: a request arrives, or the SDK
    fires a callback of a streamable transport. *)
Inductive HttpEvent : Type :=
| Incoming (pathname : string) (req : IncomingMessage)
| Initialized (transport : nat) (sessionId : string)
| TransportClosed (transport : nat) (transport_sessionId : option string).

Definition http_step (st : State) (ev : HttpEvent) : State :=
  match ev with
  | Incoming pathname req => fst (on_request st pathname req)
  | Initialized t sessionId => step st (SessionInitialized t sessionId)
  | TransportClosed t sid => step st (Closed t sid)
  end.

Definition http_run (st : State) (evs : list HttpEvent) : State :=
  foldl http_step st evs.

(** The handles have been handed out in pairs: a transport's server
    instance is the handle before its own, and both are in use. *)
Definition handles_paired (st : State) : Prop :=
  forall t srv, transports st !! t = Some srv ->
                t = S srv /\ t < next_handle st.

(** Every stored session pairs a transport the handler created with the
    server instance created for it. *)
Definition sessions_backed (st : State) : Prop :=
  forall id s, streamableSessions st !! id = Some s ->
               transports st !! transport s = Some (server s).

End HttpServer.

(** ** The test client's message builder *)

Module TestClient.
Import Js.

Record Message : Type := {
  jsonrpc : string;
  id : N;
  method : string;
  params : JsVal
}.

(** [++messageId] on a counter holding an integer from 0 to 2^53: the
    numbers are doubles, and 2^53 + 1 rounds back to 2^53. *)
Definition increment (messageId : N) : N :=
  if (messageId <? 2 ^ 53)%N then (messageId + 1)%N else messageId.

(** [createMessage(method, params = {})], threading [messageId]. *)
Definition createMessage (method : string) (params : JsVal) (messageId : N)
  : Message * N :=
  let params := match params with
                | JUndefined => JObj []
                | _ => params
                end in
  let messageId := increment messageId in
  ({| jsonrpc := "2.0"; id := messageId; method := method; params := params |},
   messageId).

(** Successive calls, in order. *)
Fixpoint createMessages (calls : list (string * JsVal)) (messageId : N)
  : list Message * N :=
  match calls with
  | [] => ([], messageId)
  | (method, params) :: rest =>
      let r := createMessage method params messageId in
      let rs := createMessages rest (snd r) in
      (fst r :: fst rs, snd rs)
  end.

End TestClient.

(** ** Further vocabulary *)

Module Derived.
Import Js Effects Server Spec.

(** [ToString] of each value, in order; the first throw wins. *)
Fixpoint render_all (vs : list JsVal) : Completion (list string) :=
  match vs with
  | [] => Normal []
  | v :: rest =>
      s ← ToString v; ss ← render_all rest; mret (s :: ss)
  end.

(** The text returned for [content] and the rendered [citations]. *)
Definition formatted (content : string) (citations : list string) : string :=
  match citations with
  | [] => content
  | _ => content +:+ LF +:+ LF +:+ "Citations:" +:+ LF
         +:+ citation_lines 1 citations
  end.

(** A request for [tool] whose arguments hold [messages] only. *)
Definition call (tool : string) (messages : JsVal) : CallToolParams :=
  {| name := tool; arguments := JObj [("messages", messages)] |}.

(** An error response, as the catch handler builds it. *)
Definition error_response (message : string) : ToolResponse :=
  text_response (JStr ("Error: " +:+ message)) true.

End Derived.

(** ** Further sample data *)

Module Samples.
Import Js Effects Server Streamable HttpServer.


Definition get_mcp (sessionId : option string) : IncomingMessage :=
  {| mcp_session_id := sessionId; Streamable.method := "GET" |}.

Definition post_mcp (sessionId : option string) : IncomingMessage :=
  {| mcp_session_id := sessionId; Streamable.method := "POST" |}.

(** A first POST, its handshake, and a GET on the SSE path. *)
Definition one_session : list HttpEvent :=
  [Incoming "/mcp" (post_mcp None);
   Initialized 1 "6f1c";
   Incoming "/sse" (get_mcp None)].

(** The first two messages of the test script. *)
Definition first_calls : list (string * JsVal) :=
  [("initialize",
    JObj [("protocolVersion", JStr "2025-06-18");
          ("capabilities", JObj []);
          ("clientInfo", JObj [("name", JStr "test-client");
                               ("version", JStr "1.0.0")])]);
   ("tools/list", JObj [])].

End Samples.

(** * Properties *)

Module StringFacts.

Lemma append_cons (c : ascii) (s t : string) :
  String c s +:+ t = String c (s +:+ t).
Proof. reflexivity. Qed.

Lemma append_nil_l (s : string) : "" +:+ s = s.
Proof. reflexivity. Qed.

Lemma append_assoc (s t u : string) : (s +:+ t) +:+ u = s +:+ (t +:+ u).
Proof.
  induction s as [|c s IH]; [reflexivity|].
  rewrite !append_cons. by rewrite IH.
Qed.

Lemma append_nil_r (s : string) : s +:+ "" = s.
Proof.
  induction s as [|c s IH]; [reflexivity|].
  rewrite append_cons. by rewrite IH.
Qed.

End StringFacts.

(** ** The upstream client *)

Module UpstreamProofs.
Import Js Effects Server Spec StringFacts.

Section WithEnvironment.

Variable PERPLEXITY_API_KEY : string.
Variable network : FetchRequest -> Completion Response.

Abbreviation request := (completion_request PERPLEXITY_API_KEY).
Abbreviation complete := (performChatCompletion PERPLEXITY_API_KEY network).

(** Every call issues exactly one request, whatever the outcome. *)
Lemma complete_log messages model log :
  snd (complete messages model log) = log ++ [request messages model].
Proof.
  unfold performChatCompletion, try_catch, fetch, mbind, M_bind, throw, lift.
  destruct (network _) as [response|e]; [|reflexivity].
  destruct (ok response); simpl.
  - destruct (json response); reflexivity.
  - destruct (Effects.text response); reflexivity.
Qed.

Lemma complete_network_failure messages model log e :
  network (request messages model) = Abrupt e ->
  complete messages model log =
    (Abrupt (Error ("Network error while calling Perplexity API: "
                    +:+ String_of_thrown e)),
     log ++ [request messages model]).
Proof.
  intros H.
  unfold performChatCompletion, try_catch, fetch, mbind, M_bind, throw.
  by rewrite H.
Qed.

Lemma complete_http_failure messages model log response :
  network (request messages model) = Normal response ->
  ok response = false ->
  complete messages model log =
    (Abrupt (Error ("Perplexity API error: " +:+ pretty (status response)
                    +:+ " " +:+ statusText response +:+ LF
                    +:+ error_body response)),
     log ++ [request messages model]).
Proof.
  intros H Hok.
  unfold performChatCompletion, try_catch, fetch, mbind, M_bind, throw, lift,
    error_body.
  rewrite H, Hok. simpl.
  by destruct (Effects.text response).
Qed.

Lemma complete_json_failure messages model log response e :
  network (request messages model) = Normal response ->
  ok response = true ->
  json response = Abrupt e ->
  complete messages model log =
    (Abrupt (Error ("Failed to parse JSON response from Perplexity API: "
                    +:+ String_of_thrown e)),
     log ++ [request messages model]).
Proof.
  intros H Hok Hjson.
  unfold performChatCompletion, try_catch, fetch, mbind, M_bind, throw, lift.
  rewrite H, Hok. simpl. by rewrite Hjson.
Qed.

(** On a parsed body the result is that of the steps after the parse. *)
Lemma complete_parsed messages model log response data :
  network (request messages model) = Normal response ->
  ok response = true ->
  json response = Normal data ->
  complete messages model log =
    (content ← first_choice_content data;
     citations ← Get data "citations";
     if isArray citations && bool_decide (0 < length (elements citations))
     then
       content' ← add_string content (LF +:+ LF +:+ "Citations:" +:+ LF);
       forEach_citation (elements citations) 0 content'
     else mret content,
     log ++ [request messages model]).
Proof.
  intros H Hok Hjson.
  unfold performChatCompletion, try_catch, fetch, throw, lift,
    first_choice_content, mbind, M_bind, Completion_bind.
  rewrite H, Hok. simpl. rewrite Hjson. f_equal.
  destruct (Get data "choices") as [choices|]; [|reflexivity].
  destruct (GetIndex choices 0) as [choice|]; [|reflexivity].
  destruct (Get choice "message") as [message|]; [|reflexivity].
  destruct (Get message "content") as [content|]; [|reflexivity].
  destruct (Get data "citations") as [citations|]; [|reflexivity].
  destruct citations; try reflexivity; simpl; by rewrite andb_false_r.
Qed.

Lemma forEach_citation_strings (cs : list string) (index : nat) (acc : string) :
  forEach_citation (JStr <$> cs) index (JStr acc) =
    Normal (JStr (acc +:+ citation_lines (S index) cs)).
Proof.
  revert index acc. induction cs as [|c cs IH]; intros index acc.
  - simpl. by rewrite append_nil_r.
  - simpl. unfold mbind, Completion_bind, add_string. simpl.
    rewrite IH. rewrite Nat.add_1_r. by rewrite !append_assoc.
Qed.

Lemma forEach_citation_string (cs : list JsVal) (index : nat) (acc : string)
    (t : JsVal) :
  forEach_citation cs index (JStr acc) = Normal t -> exists s, t = JStr s.
Proof.
  revert index acc. induction cs as [|c cs IH]; intros index acc; simpl.
  - intros [= <-]. eauto.
  - destruct (ToString c) as [rendered|]; [|discriminate]. simpl.
    apply IH.
Qed.

(** A value is returned only for a parsed body with a first-choice
    content; it is that content, or a string built from it. *)
Lemma complete_success messages model log t :
  fst (complete messages model log) = Normal t ->
  exists response data content,
    network (request messages model) = Normal response
    /\ ok response = true
    /\ json response = Normal data
    /\ first_choice_content data = Normal content
    /\ (t = content \/ exists s, t = JStr s).
Proof.
  destruct (network (request messages model)) as [response|e] eqn:Hnet.
  2: { by rewrite (complete_network_failure _ _ _ _ Hnet). }
  destruct (ok response) eqn:Hok.
  2: { by rewrite (complete_http_failure _ _ _ _ Hnet Hok). }
  destruct (json response) as [data|e] eqn:Hjson.
  2: { by rewrite (complete_json_failure _ _ _ _ _ Hnet Hok Hjson). }
  rewrite (complete_parsed _ _ _ _ _ Hnet Hok Hjson). simpl.
  destruct (first_choice_content data) as [content|] eqn:Hcontent;
    [|discriminate].
  simpl. destruct (Get data "citations") as [citations|]; [|discriminate].
  simpl. intros Hresult. exists response, data, content.
  repeat split; try done.
  destruct (isArray citations && _).
  - right. unfold add_string in Hresult.
    destruct (ToString content) as [rendered|]; [|discriminate].
    by apply forEach_citation_string in Hresult.
  - left. by injection Hresult.
Qed.

(** C2. On a parsed upstream response whose first choice's message content
    is the string [content], [performChatCompletion] returns [content]
    unmodified when [citations] is absent, not a list, or empty; when it is
    a non-empty list of strings it returns [content], then the separator
    "\n\nCitations:\n", then one line "[i] ci\n" per citation, numbered
    from 1 in list order.  In particular content "C" with citations
    ["a","b"] gives "C\n\nCitations:\n[1] a\n[2] b\n". *)
Theorem citations_appended messages model response data content citations :
  network (request messages model) = Normal response ->
  ok response = true ->
  json response = Normal data ->
  first_choice_content data = Normal (JStr content) ->
  Get data "citations" = Normal citations ->
  (isArray citations = false \/ citations = JArr [] ->
   fst (run (complete messages model)) = Normal (JStr content))
  /\ (forall cs : list string,
        cs <> [] -> citations = JArr (JStr <$> cs) ->
        fst (run (complete messages model)) =
          Normal (JStr (content +:+ LF +:+ LF +:+ "Citations:" +:+ LF
                        +:+ citation_lines 1 cs)))
  /\ (content = "C" -> citations = JArr [JStr "a"; JStr "b"] ->
      fst (run (complete messages model)) =
        Normal (JStr ("C" +:+ LF +:+ LF +:+ "Citations:" +:+ LF
                      +:+ "[1] a" +:+ LF +:+ "[2] b" +:+ LF))).
Proof.
  intros Hnet Hok Hjson Hcontent Hcit.
  assert (Hlist : forall cs : list string,
             cs <> [] -> citations = JArr (JStr <$> cs) ->
             fst (run (complete messages model)) =
               Normal (JStr (content +:+ LF +:+ LF +:+ "Citations:" +:+ LF
                             +:+ citation_lines 1 cs))).
  { intros cs Hne ->. unfold run.
    rewrite (complete_parsed _ _ _ _ _ Hnet Hok Hjson), Hcontent, Hcit.
    destruct cs as [|c cs]; [done|].
    cbn [fst mbind Completion_bind isArray elements andb].
    rewrite bool_decide_true by (simpl; lia).
    unfold add_string. cbn [ToString mbind Completion_bind mret Completion_ret].
    rewrite forEach_citation_strings. by rewrite !append_assoc. }
  split; [|split].
  - intros Hnone. unfold run.
    rewrite (complete_parsed _ _ _ _ _ Hnet Hok Hjson), Hcontent, Hcit.
    destruct Hnone as [Hnot| ->]; [|reflexivity].
    cbn [fst mbind Completion_bind]. by rewrite Hnot.
  - exact Hlist.
  - intros -> ->. by rewrite (Hlist ["a"; "b"]).
Qed.

(** C6. [performChatCompletion] fails in three ways, each with its own
    message and each by a throw (no value is returned): a [fetch] that
    rejects gives the network-error message; a response that is not [ok]
    gives a message holding the status code, the status text and the body
    text, the body being the fixed placeholder when it cannot be read; a
    body that is not JSON gives the JSON-parse message.  The three
    messages are pairwise different. *)
Theorem upstream_failures messages model :
  (forall e,
      network (request messages model) = Abrupt e ->
      run (complete messages model) =
        (Abrupt (Error ("Network error while calling Perplexity API: "
                        +:+ String_of_thrown e)),
         [request messages model]))
  /\ (forall response,
        network (request messages model) = Normal response ->
        ok response = false ->
        exists msg,
          run (complete messages model) =
            (Abrupt (Error msg), [request messages model])
          /\ msg = "Perplexity API error: " +:+ pretty (status response)
                   +:+ " " +:+ statusText response +:+ LF
                   +:+ error_body response
          /\ includes (pretty (status response)) msg
          /\ includes (statusText response) msg
          /\ includes (error_body response) msg
          /\ (forall body, Effects.text response = Normal body ->
                           error_body response = body)
          /\ (forall e, Effects.text response = Abrupt e ->
                        error_body response
                        = "Unable to parse error response"))
  /\ (forall response e,
        network (request messages model) = Normal response ->
        ok response = true ->
        json response = Abrupt e ->
        run (complete messages model) =
          (Abrupt (Error ("Failed to parse JSON response from Perplexity API: "
                          +:+ String_of_thrown e)),
           [request messages model]))
  /\ (forall a b c : string,
        "Network error while calling Perplexity API: " +:+ a
          <> "Perplexity API error: " +:+ b
        /\ "Network error while calling Perplexity API: " +:+ a
          <> "Failed to parse JSON response from Perplexity API: " +:+ c
        /\ "Perplexity API error: " +:+ b
          <> "Failed to parse JSON response from Perplexity API: " +:+ c).
Proof.
  repeat split.
  - intros e He. unfold run. by rewrite (complete_network_failure _ _ _ _ He).
  - intros response Hnet Hok. eexists. split; [|split; [reflexivity|]].
    { unfold run. by rewrite (complete_http_failure _ _ _ _ Hnet Hok). }
    repeat split.
    + exists "Perplexity API error: ",
        (" " +:+ statusText response +:+ LF +:+ error_body response).
      reflexivity.
    + exists ("Perplexity API error: " +:+ pretty (status response) +:+ " "),
        (LF +:+ error_body response).
      by rewrite !append_assoc.
    + exists ("Perplexity API error: " +:+ pretty (status response) +:+ " "
              +:+ statusText response +:+ LF), "".
      by rewrite !append_assoc, append_nil_r.
    + intros body Hbody. unfold error_body. by rewrite Hbody.
    + intros e He. unfold error_body. by rewrite He.
  - intros response e Hnet Hok Hjson. unfold run.
    by rewrite (complete_json_failure _ _ _ _ _ Hnet Hok Hjson).
  - rewrite !append_cons. discriminate.
  - rewrite !append_cons. discriminate.
  - rewrite !append_cons. discriminate.
Qed.

End WithEnvironment.

Import Examples.

Lemma citations_appended_witness :
  fst (run (performChatCompletion api_key (answering cited) hello "sonar-pro"))
  = Normal (JStr ("C" +:+ LF +:+ LF +:+ "Citations:" +:+ LF
                  +:+ "[1] a" +:+ LF +:+ "[2] b" +:+ LF))
  /\ fst (run (performChatCompletion api_key (answering uncited) hello
                 "sonar-pro"))
     = Normal (JStr "C").
Proof.
  split.
  - apply (citations_appended api_key (answering cited) hello "sonar-pro"
             (answer cited) cited "C" (JArr [JStr "a"; JStr "b"]));
      reflexivity.
  - apply (citations_appended api_key (answering uncited) hello "sonar-pro"
             (answer uncited) uncited "C" JUndefined);
      try reflexivity.
    left. reflexivity.
Defined.

Lemma upstream_failures_witness :
  fst (run (performChatCompletion api_key offline hello "sonar-pro"))
  = Abrupt (Error ("Network error while calling Perplexity API: "
                   +:+ "TypeError: fetch failed"))
  /\ (exists msg,
        run (performChatCompletion api_key (fun _ => Normal rate_limited)
               hello "sonar-pro")
        = (Abrupt (Error msg), [completion_request api_key hello "sonar-pro"])
        /\ msg = "Perplexity API error: 429 Too Many Requests" +:+ LF
                 +:+ "Unable to parse error response")
  /\ (exists msg,
        run (performChatCompletion api_key (fun _ => Normal unauthorized)
               hello "sonar-pro")
        = (Abrupt (Error msg), [completion_request api_key hello "sonar-pro"])
        /\ msg = "Perplexity API error: 401 Unauthorized" +:+ LF
                 +:+ "invalid api key")
  /\ fst (run (performChatCompletion api_key (fun _ => Normal garbled)
                 hello "sonar-pro"))
     = Abrupt (Error ("Failed to parse JSON response from Perplexity API: "
                      +:+ "SyntaxError: Unexpected token < in JSON")).
Proof.
  split; [|split; [|split]].
  - destruct (upstream_failures api_key offline hello "sonar-pro")
      as (Hnet & _).
    by rewrite (Hnet (TypeError "fetch failed") eq_refl).
  - destruct (upstream_failures api_key (fun _ => Normal rate_limited) hello
                "sonar-pro") as (_ & Hhttp & _).
    destruct (Hhttp rate_limited eq_refl eq_refl) as (msg & Hrun & -> & _).
    eexists. split; [exact Hrun|reflexivity].
  - destruct (upstream_failures api_key (fun _ => Normal unauthorized) hello
                "sonar-pro") as (_ & Hhttp & _).
    destruct (Hhttp unauthorized eq_refl eq_refl) as (msg & Hrun & -> & _).
    eexists. split; [exact Hrun|reflexivity].
  - destruct (upstream_failures api_key (fun _ => Normal garbled) hello
                "sonar-pro") as (_ & _ & Hjson & _).
    by rewrite (Hjson garbled _ eq_refl eq_refl eq_refl).
Defined.

End UpstreamProofs.

(** ** The dispatcher *)

Module DispatcherProofs.
Import Js Effects Server Spec StringFacts UpstreamProofs.

Section WithEnvironment.

Variable PERPLEXITY_API_KEY : string.
Variable network : FetchRequest -> Completion Response.

Abbreviation request := (completion_request PERPLEXITY_API_KEY).
Abbreviation complete := (performChatCompletion PERPLEXITY_API_KEY network).
Abbreviation body := (CallToolBody PERPLEXITY_API_KEY network).
Abbreviation handler := (CallToolHandler PERPLEXITY_API_KEY network).

Lemma Get_truthy (v : JsVal) (key : string) :
  ToBoolean v = true -> exists m, Get v key = Normal m.
Proof. destruct v; simpl; intros H; try discriminate; eauto. Qed.

Lemma body_no_arguments req log :
  ToBoolean (arguments req) = false ->
  body req log = (Abrupt (Error "No arguments provided"), log).
Proof. intros H. unfold CallToolBody. by rewrite H. Qed.

Lemma handler_no_arguments req log :
  ToBoolean (arguments req) = false ->
  handler req log =
    (Normal (text_response (JStr "Error: No arguments provided") true), log).
Proof.
  intros H. unfold CallToolHandler, try_catch.
  by rewrite (body_no_arguments _ _ H).
Qed.

Lemma body_unknown req log :
  ToBoolean (arguments req) = true ->
  ~ registered (name req) ->
  body req log =
    (Normal (text_response (JStr ("Unknown tool: " +:+ name req)) true), log).
Proof.
  intros H Hname. unfold CallToolBody, registered in *. rewrite H. simpl.
  repeat case_bool_decide; tauto.
Qed.

(** The three branches of the [switch] are one branch, up to the tool's
    name in the message and its model. *)
Lemma body_registered req log :
  ToBoolean (arguments req) = true ->
  registered (name req) ->
  body req log =
    (messages ← lift (Get (arguments req) "messages");
     if negb (isArray messages)
     then throw (Error (invalid_arguments (name req)))
     else result ← complete messages (model_for (name req));
          mret (text_response result false)) log.
Proof.
  intros H Hname. unfold CallToolBody, model_for, invalid_arguments.
  rewrite H. simpl.
  destruct Hname as [-> | [-> | ->]]; reflexivity.
Qed.

Lemma registered_dec (name : string) : registered name \/ ~ registered name.
Proof.
  unfold registered.
  destruct (decide (name = "perplexity_ask")); [tauto|].
  destruct (decide (name = "perplexity_research")); [tauto|].
  destruct (decide (name = "perplexity_reason")); tauto.
Qed.

Lemma body_cases req log :
  body_outcome PERPLEXITY_API_KEY network req log (body req log).
Proof.
  destruct (ToBoolean (arguments req)) eqn:Hargs.
  2: { rewrite body_no_arguments by done. by constructor. }
  destruct (registered_dec (name req)) as [Hname|Hname].
  2: { rewrite body_unknown by done. by constructor. }
  rewrite body_registered by done.
  destruct (Get_truthy _ "messages" Hargs) as [messages Hget].
  unfold mbind, M_bind, lift. rewrite Hget.
  destruct (isArray messages) eqn:Harr; simpl.
  2: { by eapply InvalidMessages. }
  pose proof (complete_log PERPLEXITY_API_KEY network messages
                (model_for (name req)) log) as Hlog.
  destruct (complete messages (model_for (name req)) log) as [[result|e] log']
    eqn:Hrun; simpl in Hlog; subst log'.
  - by eapply Completed.
  - by eapply UpstreamFailed.
Qed.

Lemma handler_of_body req log :
  handler req log =
    match body req log with
    | (Normal r, log') => (Normal r, log')
    | (Abrupt e, log') =>
        (Normal (text_response (JStr ("Error: " +:+ message_of e)) true), log')
    end.
Proof. reflexivity. Qed.

Lemma unknown_is_not_error (name rest : string) :
  "Unknown tool: " +:+ name <> "Error: " +:+ rest.
Proof. rewrite !append_cons. discriminate. Qed.

(** An upstream body without a first choice makes the client throw. *)
Lemma complete_no_first_choice messages model log response data :
  network (request messages model) = Normal response ->
  ok response = true ->
  json response = Normal data ->
  Get data "choices" = Normal (JArr []) \/ Get data "choices" = Normal JUndefined ->
  exists e, fst (complete messages model log) = Abrupt e.
Proof.
  intros Hnet Hok Hjson Hchoices.
  rewrite (complete_parsed _ _ _ _ _ _ _ Hnet Hok Hjson).
  unfold first_choice_content.
  destruct Hchoices as [-> | ->]; simpl; eauto.
Qed.

Ltac same_throw :=
  try match goal with
      | H : fst (Abrupt _, _) = Abrupt _ |- _ =>
          simpl in H; injection H as <-; reflexivity
      end.

(** C1 (as the code has it).  The handler always returns an envelope with
    exactly one content item of type "text" and never throws.  Whatever is
    thrown in the [try] block (argument validation, routing, the upstream
    call) comes back as [isError:true] with the text "Error: <message>";
    in every [isError:true] response the text is a string.  A response
    with [isError:false] carries, as its text, the value the upstream
    client returned for the one request it sent: the first choice's
    message content of the parsed body, or a string built from it, hence
    a string whenever that content is one.  An upstream body whose
    [choices] is empty or absent always gives [isError:true]. *)
Theorem handler_envelope (req : CallToolParams) :
  exists (t : JsVal) (b : bool) (log : list FetchRequest),
    run (handler req) = (Normal (text_response t b), log)
    /\ (b = true -> exists s : string, t = JStr s)
    /\ (forall e, fst (run (body req)) = Abrupt e ->
                  t = JStr ("Error: " +:+ message_of e) /\ b = true)
    /\ (b = false ->
        exists messages model response data content,
          log = [request messages model]
          /\ fst (run (complete messages model)) = Normal t
          /\ network (request messages model) = Normal response
          /\ json response = Normal data
          /\ first_choice_content data = Normal content
          /\ (t = content \/ exists s : string, t = JStr s))
    /\ (forall response data,
          (forall sent, network sent = Normal response) ->
          ok response = true ->
          json response = Normal data ->
          Get data "choices" = Normal (JArr [])
          \/ Get data "choices" = Normal JUndefined ->
          b = true).
Proof.
  unfold run. rewrite handler_of_body.
  destruct (body_cases req []) as
    [Hargs|Hargs Hname|m Hargs Hname Hget Harr|m e Hargs Hname Hget Harr Hrun
    |m result Hargs Hname Hget Harr Hrun].
  - do 3 eexists. split; [reflexivity|].
    repeat split; eauto; try discriminate; same_throw.
  - do 3 eexists. split; [reflexivity|].
    repeat split; eauto; try discriminate.
  - do 3 eexists. split; [reflexivity|].
    repeat split; eauto; try discriminate; same_throw.
  - do 3 eexists. split; [reflexivity|].
    repeat split; eauto; try discriminate; same_throw.
  - do 3 eexists. split; [reflexivity|].
    repeat split; try discriminate.
    + intros _.
      assert (Hfst : fst (complete m (model_for (name req)) []) = Normal result)
        by (by rewrite Hrun).
      destruct (complete_success _ _ _ _ _ _ Hfst)
        as (response & data & content & Hnet & _ & Hjson & Hcontent & Hshape).
      exists m, (model_for (name req)), response, data, content.
      by rewrite Hrun.
    + intros response data Hnet Hok Hjson Hchoices.
      destruct (complete_no_first_choice m (model_for (name req)) []
                  response data (Hnet _) Hok Hjson Hchoices) as [e He].
      rewrite Hrun in He. discriminate.
Qed.

(** C3. For each of the three tools, an arguments object whose [messages]
    property is absent or not an array gives an [isError:true] response
    whose text names the tool and holds the word "array"; no upstream
    call is made. *)
Theorem invalid_messages_rejected (tool : string) (props : list (string * JsVal)) :
  registered tool ->
  isArray (default JUndefined (own_property props "messages")) = false ->
  exists t : string,
    run (handler {| name := tool; arguments := JObj props |}) =
      (Normal (text_response (JStr t) true), [])
    /\ t = "Error: Invalid arguments for " +:+ tool
           +:+ ": 'messages' must be an array"
    /\ includes tool t
    /\ includes "array" t.
Proof.
  intros Hname Harr. eexists. split; [|split; [reflexivity|split]].
  - unfold run. rewrite handler_of_body, body_registered by done.
    unfold mbind, M_bind, lift. simpl. by rewrite Harr.
  - by exists "Error: Invalid arguments for ", ": 'messages' must be an array".
  - exists ("Error: Invalid arguments for " +:+ tool
            +:+ ": 'messages' must be an "), "".
    by rewrite !append_assoc.
Qed.

(** C4. With an arguments object present and a tool name [X] that is not
    registered, the handler returns exactly the [isError:true] response
    with text "Unknown tool: X"; the [try] block itself returns it (the
    catch handler is not involved), so the text has no "Error: " prefix;
    no upstream call is made. *)
Theorem unknown_tool (req : CallToolParams) :
  ToBoolean (arguments req) = true ->
  ~ registered (name req) ->
  run (handler req) =
    (Normal (text_response (JStr ("Unknown tool: " +:+ name req)) true), [])
  /\ run (body req) =
    (Normal (text_response (JStr ("Unknown tool: " +:+ name req)) true), [])
  /\ (forall rest : string,
        "Unknown tool: " +:+ name req <> "Error: " +:+ rest).
Proof.
  intros Hargs Hname. unfold run.
  rewrite handler_of_body, body_unknown by done.
  repeat split. intros rest. apply unknown_is_not_error.
Qed.

(** C5 (as the code has it).  When no arguments object is present the
    [try] block throws an error with the message "No arguments provided",
    and the handler returns the [isError:true] response whose text is
    "Error: No arguments provided"; no upstream call is made. *)
Theorem no_arguments_error (req : CallToolParams) :
  ToBoolean (arguments req) = false ->
  run (body req) = (Abrupt (Error "No arguments provided"), [])
  /\ run (handler req) =
    (Normal (text_response (JStr "Error: No arguments provided") true), []).
Proof.
  intros Hargs. unfold run.
  by rewrite handler_no_arguments, body_no_arguments.
Qed.

(** C10. The check for an arguments object comes before the routing on the
    tool name: without arguments the response is the no-arguments error
    whatever the tool name, and never the unknown-tool response; the
    unknown-tool response is only returned when arguments are present. *)
Theorem arguments_checked_before_routing (req : CallToolParams) :
  (ToBoolean (arguments req) = false ->
   run (handler req) =
     (Normal (text_response (JStr "Error: No arguments provided") true), [])
   /\ fst (run (handler req)) <>
     Normal (text_response (JStr ("Unknown tool: " +:+ name req)) true))
  /\ (fst (run (handler req)) =
        Normal (text_response (JStr ("Unknown tool: " +:+ name req)) true) ->
      ToBoolean (arguments req) = true).
Proof.
  assert (Hno : ToBoolean (arguments req) = false ->
                fst (run (handler req)) <>
                Normal (text_response
                          (JStr ("Unknown tool: " +:+ name req)) true)).
  { intros Hargs. unfold run. rewrite handler_no_arguments by done.
    simpl. intros [= ]. }
  split.
  - intros Hargs. split; [|by apply Hno].
    unfold run. by rewrite handler_no_arguments.
  - intros Hunknown. destruct (ToBoolean (arguments req)) eqn:Hargs; [done|].
    by destruct (Hno eq_refl).
Qed.

End WithEnvironment.

Import Examples.

(** C1, as stated, fails: the upstream body [{"choices":[{"message":{}}]}]
    has a malformed first choice, yet the handler answers [isError:false]
    with a text that is [undefined], not a string. *)
Lemma handler_envelope_counterexample :
  run (CallToolHandler api_key (answering no_content) ask_hello)
  = (Normal (text_response JUndefined false),
     [completion_request api_key hello "sonar-pro"])
  /\ ~ string_envelope (text_response JUndefined false)
  /\ isError (text_response JUndefined false) <> true.
Proof.
  split; [reflexivity|]. split; [|discriminate].
  intros (s & b & H). discriminate H.
Qed.

Lemma handler_envelope_witness :
  run (CallToolHandler api_key (answering no_choices) ask_hello)
  = (Normal (text_response
               (JStr "Error: Cannot read properties of undefined (reading 'message')")
               true),
     [completion_request api_key hello "sonar-pro"]).
Proof.
  destruct (handler_envelope api_key (answering no_choices) ask_hello)
    as (t & b & log & Hrun & _ & Hthrown & _ & Hchoices).
  rewrite Hrun.
  destruct (Hthrown (TypeError "Cannot read properties of undefined (reading 'message')")
              eq_refl) as [-> _].
  rewrite (Hchoices (answer no_choices) no_choices
             (fun _ => eq_refl) eq_refl eq_refl (or_introl eq_refl)).
  f_equal. vm_compute in Hrun. by injection Hrun as _ <-.
Defined.

Lemma invalid_messages_rejected_witness :
  exists t : string,
    run (CallToolHandler api_key offline
           {| name := "perplexity_research";
              arguments := JObj [("messages", JStr "hello")] |})
    = (Normal (text_response (JStr t) true), [])
    /\ t = "Error: Invalid arguments for perplexity_research: 'messages' must be an array".
Proof.
  destruct (invalid_messages_rejected api_key offline "perplexity_research"
              [("messages", JStr "hello")])
    as (t & Hrun & Ht & _).
  - right. left. reflexivity.
  - reflexivity.
  - exists t. split; [exact Hrun|exact Ht].
Defined.

Lemma unknown_tool_witness :
  run (CallToolHandler api_key offline
         {| name := "perplexity_search"; arguments := JObj [] |})
  = (Normal (text_response (JStr "Unknown tool: perplexity_search") true), []).
Proof.
  apply (unknown_tool api_key offline
           {| name := "perplexity_search"; arguments := JObj [] |}).
  - reflexivity.
  - unfold registered. simpl. intros [H | [H | H]]; discriminate H.
Defined.

(** C5, as stated, fails: without arguments the text is not the bare
    message "No arguments provided". *)
Lemma no_arguments_error_counterexample :
  run (CallToolHandler api_key offline (ask JUndefined))
  = (Normal (text_response (JStr "Error: No arguments provided") true), [])
  /\ fst (run (CallToolHandler api_key offline (ask JUndefined)))
     <> Normal (text_response (JStr "No arguments provided") true).
Proof. split; [reflexivity|discriminate]. Qed.

Lemma no_arguments_error_witness :
  run (CallToolHandler api_key offline (ask JUndefined))
  = (Normal (text_response (JStr "Error: No arguments provided") true), []).
Proof.
  apply (no_arguments_error api_key offline (ask JUndefined)). reflexivity.
Defined.

Lemma arguments_checked_before_routing_witness :
  fst (run (CallToolHandler api_key offline
              {| name := "perplexity_search"; arguments := JUndefined |}))
  <> Normal (text_response (JStr "Unknown tool: perplexity_search") true)
  /\ ToBoolean (JObj []) = true.
Proof.
  split.
  - apply (arguments_checked_before_routing api_key offline
             {| name := "perplexity_search"; arguments := JUndefined |}).
    reflexivity.
  - apply (arguments_checked_before_routing api_key offline
             {| name := "perplexity_search"; arguments := JObj [] |}).
    reflexivity.
Defined.

End DispatcherProofs.

(** ** The streamable-HTTP endpoint *)

Module StreamableProofs.
Import Streamable.

Lemma handleStreamable_sessions (st : State) (req : IncomingMessage) :
  streamableSessions (fst (handleStreamable st req)) = streamableSessions st.
Proof.
  unfold handleStreamable.
  destruct (truthy (mcp_session_id req)).
  - by destruct (streamableSessions st !! _).
  - by case_bool_decide.
Qed.

(** What one event can do to an entry of the table. *)
Lemma step_lookup (st : State) (ev : Event) (id : string) (s : Session) :
  streamableSessions (step st ev) !! id = Some s ->
  streamableSessions st !! id = Some s
  \/ ev = SessionInitialized (transport s) id.
Proof.
  destruct ev as [req|t sid|t sid]; simpl.
  - rewrite handleStreamable_sessions. auto.
  - destruct (transports st !! t) as [srv|]; [|auto]. simpl.
    unfold onsessioninitialized.
    destruct (decide (sid = id)) as [->|Hne].
    + rewrite lookup_insert_eq. intros [= <-]. auto.
    + rewrite lookup_insert_ne by done. auto.
  - destruct (transports st !! t) as [srv|]; [|auto]. simpl.
    unfold onclose. destruct (truthy sid); [|auto].
    intros H. apply lookup_delete_Some in H as [_ H]. auto.
Qed.

Lemma run_events_lookup (evs : list Event) (st : State) (id : string)
    (s : Session) :
  streamableSessions (run_events st evs) !! id = Some s ->
  streamableSessions st !! id = Some s
  \/ SessionInitialized (transport s) id ∈ evs.
Proof.
  revert st. induction evs as [|ev evs IH]; intros st; simpl; [auto|].
  intros H. destruct (IH _ H) as [Hst|Hin].
  - destruct (step_lookup _ _ _ _ Hst) as [?| ->]; [auto|].
    right. apply list_elem_of_here.
  - right. by apply list_elem_of_further.
Qed.

(** C7 (as the code has it).  A request to [/mcp] whose [mcp-session-id]
    header has a non-empty value that is not a key of the session table
    is answered 404 "Session not found"; a request with no such header
    (or with an empty one) whose method is not POST is answered 400
    "Invalid request".  Neither changes the state. *)
Theorem streamable_rejections (st : State) (req : IncomingMessage) :
  (forall id : string,
      mcp_session_id req = Some id ->
      id <> "" ->
      streamableSessions st !! id = None ->
      handleStreamable st req =
        (st, Answered {| statusCode := 404;
                         ended := Some "Session not found" |}))
  /\ (mcp_session_id req = None \/ mcp_session_id req = Some "" ->
      method req <> "POST" ->
      handleStreamable st req =
        (st, Answered {| statusCode := 400;
                         ended := Some "Invalid request" |})).
Proof.
  split.
  - intros id Hid Hne Hnone. unfold handleStreamable. rewrite Hid. simpl.
    rewrite bool_decide_false by done. simpl. by rewrite Hnone.
  - intros Hid Hmethod. unfold handleStreamable.
    destruct Hid as [-> | ->]; simpl; by rewrite bool_decide_false.
Qed.

(** C8. The session table changes only through the two callbacks: the
    request handler itself never changes it; [onsessioninitialized] of a
    transport stores that transport's session under the id it is called
    with; [onclose] removes the entry of the transport's session id; any
    event that changes the table is one of these two; and, starting from
    the empty table, a stored entry was always put there by an
    [onsessioninitialized] call for that id and that transport, so a
    session whose handshake never completes is never stored. *)
Theorem session_table_invariant :
  (forall st req,
      streamableSessions (fst (handleStreamable st req))
      = streamableSessions st)
  /\ (forall st t srv sid,
        transports st !! t = Some srv ->
        streamableSessions (step st (SessionInitialized t sid))
        = <[sid := {| transport := t; server := srv |}]>
            (streamableSessions st))
  /\ (forall st t srv sid,
        transports st !! t = Some srv ->
        sid <> "" ->
        streamableSessions (step st (Closed t (Some sid)))
        = delete sid (streamableSessions st))
  /\ (forall st ev,
        streamableSessions (step st ev) <> streamableSessions st ->
        (exists t sid, ev = SessionInitialized t sid)
        \/ (exists t sid, ev = Closed t (Some sid)))
  /\ (forall evs id s,
        streamableSessions (run_events initial evs) !! id = Some s ->
        SessionInitialized (transport s) id ∈ evs).
Proof.
  split; [exact handleStreamable_sessions|].
  split; [|split; [|split]].
  - intros st t srv sid Ht. simpl. by rewrite Ht.
  - intros st t srv sid Ht Hne. simpl. rewrite Ht. simpl.
    unfold onclose. simpl. by rewrite bool_decide_false.
  - intros st [req|t sid|t [sid|]] Hchanged.
    + exfalso. apply Hchanged. apply handleStreamable_sessions.
    + left. eauto.
    + right. eauto.
    + exfalso. apply Hchanged. simpl.
      by destruct (transports st !! t).
  - intros evs id s H.
    destruct (run_events_lookup _ _ _ _ H) as [Hinit|Hin]; [|done].
    simpl in Hinit. by rewrite lookup_empty in Hinit.
Qed.

Import Examples.

(** C7, as stated, fails: an [mcp-session-id] header with an empty value
    is not a key of the (empty) table, and the answer to this GET is 400
    "Invalid request", not 404. *)
Lemma streamable_rejections_counterexample :
  mcp_session_id empty_session_header = Some ""
  /\ streamableSessions initial !! "" = None
  /\ snd (handleStreamable initial empty_session_header)
     = Answered {| statusCode := 400; ended := Some "Invalid request" |}
  /\ snd (handleStreamable initial empty_session_header)
     <> Answered {| statusCode := 404; ended := Some "Session not found" |}.
Proof. repeat split. discriminate. Qed.

Lemma streamable_rejections_witness :
  handleStreamable initial
    {| mcp_session_id := Some "6f1c"; method := "GET" |}
  = (initial, Answered {| statusCode := 404;
                          ended := Some "Session not found" |})
  /\ handleStreamable initial {| mcp_session_id := None; method := "PUT" |}
     = (initial, Answered {| statusCode := 400;
                             ended := Some "Invalid request" |}).
Proof.
  split.
  - apply (streamable_rejections initial
             {| mcp_session_id := Some "6f1c"; method := "GET" |} ) with
      (id := "6f1c"); [reflexivity|discriminate|reflexivity].
  - apply (streamable_rejections initial
             {| mcp_session_id := None; method := "PUT" |});
      [left; reflexivity|discriminate].
Defined.

Lemma session_table_invariant_witness :
  SessionInitialized 1 "6f1c"
  ∈ [Request first_post; SessionInitialized 1 "6f1c"]
  /\ streamableSessions
       (step (run_events initial [Request first_post;
                                  SessionInitialized 1 "6f1c"])
             (Closed 1 (Some "6f1c")))
     = delete "6f1c"
         (streamableSessions
            (run_events initial [Request first_post;
                                 SessionInitialized 1 "6f1c"])).
Proof.
  destruct session_table_invariant as (_ & _ & Hclose & _ & Hstored).
  split.
  - apply (Hstored [Request first_post; SessionInitialized 1 "6f1c"] "6f1c"
             {| transport := 1; server := 0 |}).
    reflexivity.
  - apply (Hclose _ 1 0 "6f1c"); [reflexivity|discriminate].
Defined.

End StreamableProofs.

(** ** The two entry points *)

Module EntryProofs.
Import Js Entry.

Section WithParseInt.

Variable parseInt10 : string -> string.

Lemma js_loop_without_port (args : list string) (options : Options) :
  "--port" ∉ args ->
  EntryJs.parseArgs_loop parseInt10 args options = options.
Proof.
  induction args as [|arg rest IH]; intros Hport; [reflexivity|].
  apply not_elem_of_cons in Hport as [Hne Hrest]. simpl.
  rewrite bool_decide_false by done. simpl. by apply IH.
Qed.

Lemma ts_loop_without_flags (args : list string) (options : Options) :
  "--port" ∉ args -> "--stdio" ∉ args ->
  EntryTs.parseArgs_loop parseInt10 args options = options.
Proof.
  induction args as [|arg rest IH]; intros Hport Hstdio; [reflexivity|].
  apply not_elem_of_cons in Hport as [Hne Hrest].
  apply not_elem_of_cons in Hstdio as [Hne' Hrest']. simpl.
  rewrite bool_decide_false by done. simpl.
  rewrite bool_decide_false by done. by apply IH.
Qed.

(** The first variant has no branch for [--stdio]: its loop never assigns
    [options.stdio]. *)
Lemma js_loop_stdio (n : nat) (args : list string) (options : Options) :
  length args <= n ->
  stdio (EntryJs.parseArgs_loop parseInt10 args options) = stdio options.
Proof.
  revert args options. induction n as [|n IH]; intros args options Hlen.
  - destruct args; [reflexivity|simpl in Hlen; lia].
  - destruct args as [|arg rest]; [reflexivity|]. simpl in *.
    destruct (bool_decide (arg = "--port") && bool_decide (0 < length rest)).
    + destruct rest as [|next rest']; [reflexivity|].
      rewrite IH by (simpl in Hlen; lia). reflexivity.
    + apply IH. lia.
Qed.

Lemma ts_loop_stdio_kept (args : list string) (options : Options) :
  "--port" ∉ args ->
  stdio options = JBool true ->
  stdio (EntryTs.parseArgs_loop parseInt10 args options) = JBool true.
Proof.
  revert options. induction args as [|arg rest IH]; intros options Hport Hset;
    [done|].
  apply not_elem_of_cons in Hport as [Hne Hrest]. simpl.
  rewrite bool_decide_false by done. simpl.
  case_bool_decide; by apply IH.
Qed.

Lemma ts_loop_stdio_set (args : list string) (options : Options) :
  "--port" ∉ args -> "--stdio" ∈ args ->
  stdio (EntryTs.parseArgs_loop parseInt10 args options) = JBool true.
Proof.
  revert options. induction args as [|arg rest IH]; intros options Hport Hin.
  - by apply elem_of_nil in Hin.
  - apply not_elem_of_cons in Hport as [Hne Hrest]. simpl.
    rewrite bool_decide_false by done. simpl.
    case_bool_decide as Harg.
    + by apply ts_loop_stdio_kept.
    + apply IH; [done|]. apply elem_of_cons in Hin as [?|?]; congruence.
Qed.

(** C9. The two entry points differ.  On arguments holding neither
    [--port] nor [--stdio], [runServer] of the first variant selects the
    stdio transport and [runServer] of the second starts the HTTP
    listener on port 8080.  The first variant's [parseArgs] never sets
    the [stdio] option; the second's sets it when [--stdio] is given. *)
Theorem entry_points_differ (argv : list string) :
  "--port" ∉ drop 2 argv ->
  "--stdio" ∉ drop 2 argv ->
  EntryJs.runServer parseInt10 argv = Stdio
  /\ EntryTs.runServer parseInt10 argv = Http (JNum "8080")
  /\ EntryJs.runServer parseInt10 argv <> EntryTs.runServer parseInt10 argv
  /\ (forall argv' : list string,
        stdio (EntryJs.parseArgs parseInt10 argv') = JUndefined)
  /\ (forall argv' : list string,
        "--port" ∉ drop 2 argv' ->
        "--stdio" ∈ drop 2 argv' ->
        stdio (EntryTs.parseArgs parseInt10 argv') = JBool true
        /\ EntryTs.runServer parseInt10 argv' = Stdio).
Proof.
  intros Hport Hstdio.
  assert (Hjs : EntryJs.runServer parseInt10 argv = Stdio).
  { unfold EntryJs.runServer, EntryJs.parseArgs.
    by rewrite js_loop_without_port. }
  assert (Hts : EntryTs.runServer parseInt10 argv = Http (JNum "8080")).
  { unfold EntryTs.runServer, EntryTs.parseArgs.
    by rewrite ts_loop_without_flags. }
  split; [done|]. split; [done|]. split; [by rewrite Hjs, Hts|]. split.
  - intros argv'. unfold EntryJs.parseArgs.
    by rewrite (js_loop_stdio (length (drop 2 argv'))).
  - intros argv' Hport' Hstdio'.
    assert (H : stdio (EntryTs.parseArgs parseInt10 argv') = JBool true)
      by (by apply ts_loop_stdio_set).
    split; [done|]. unfold EntryTs.runServer. by rewrite H.
Qed.

End WithParseInt.

Import Examples.

Lemma entry_points_differ_witness :
  EntryJs.runServer parseInt10_small ["node"; "dist/index.js"] = Stdio
  /\ EntryTs.runServer parseInt10_small ["node"; "dist/index.js"]
     = Http (JNum "8080")
  /\ EntryTs.runServer parseInt10_small ["node"; "dist/index.js"; "--stdio"]
     = Stdio.
Proof.
  destruct (entry_points_differ parseInt10_small ["node"; "dist/index.js"])
    as (Hjs & Hts & _ & _ & Hflag).
  - apply not_elem_of_nil.
  - apply not_elem_of_nil.
  - split; [exact Hjs|]. split; [exact Hts|].
    apply (Hflag ["node"; "dist/index.js"; "--stdio"]).
    + simpl. intros [H|H]%elem_of_cons; [discriminate H|].
      by apply elem_of_nil in H.
    + simpl. apply list_elem_of_here.
Defined.

End EntryProofs.

(** * Further properties *)

(** ** The upstream client: requests sent and texts built *)

Module UpstreamExtras.
Import Js Effects Server Spec Derived StringFacts UpstreamProofs.

Section WithEnvironment.

Variable PERPLEXITY_API_KEY : string.
Variable network : FetchRequest -> Completion Response.

Abbreviation request := (completion_request PERPLEXITY_API_KEY).
Abbreviation complete := (performChatCompletion PERPLEXITY_API_KEY network).

Lemma render_all_strings (cs : list string) :
  render_all (JStr <$> cs) = Normal cs.
Proof.
  induction cs as [|c cs IH]; [reflexivity|].
  rewrite fmap_cons. cbn [render_all ToString mbind Completion_bind].
  by rewrite IH.
Qed.

Lemma render_all_cons_inv (c : JsVal) (cs : list JsVal) (rs : list string) :
  render_all (c :: cs) = Normal rs ->
  exists s ss, rs = s :: ss /\ ToString c = Normal s
               /\ render_all cs = Normal ss.
Proof.
  simpl. destruct (ToString c) as [s|]; [|discriminate]. simpl.
  destruct (render_all cs) as [ss|]; [|discriminate]. simpl.
  intros [= <-]. eauto.
Qed.

(** The loop over the citations, in closed form. *)
Lemma forEach_citation_rendered (cs : list JsVal) (index : nat) (acc : string) :
  forEach_citation cs index (JStr acc) =
    (rs ← render_all cs;
     mret (JStr (acc +:+ citation_lines (S index) rs))).
Proof.
  revert index acc. induction cs as [|c cs IH]; intros index acc.
  - simpl. unfold mret, Completion_ret. by rewrite append_nil_r.
  - simpl. destruct (ToString c) as [s|e]; [|reflexivity].
    unfold add_string.
    cbn [ToString mbind Completion_bind mret Completion_ret].
    rewrite IH.
    destruct (render_all cs) as [ss|e]; [|reflexivity].
    cbn [mbind Completion_bind mret Completion_ret citation_lines].
    rewrite Nat.add_1_r. by rewrite !append_assoc.
Qed.

Lemma complete_rendered messages model log response data content cs :
  network (request messages model) = Normal response ->
  ok response = true ->
  json response = Normal data ->
  first_choice_content data = Normal content ->
  Get data "citations" = Normal (JArr cs) ->
  cs <> [] ->
  complete messages model log =
    (p ← ToString content;
     rs ← render_all cs;
     mret (JStr (formatted p rs)),
     log ++ [request messages model]).
Proof.
  intros Hnet Hok Hjson Hcontent Hcit Hne.
  rewrite (complete_parsed _ _ _ _ _ _ _ Hnet Hok Hjson), Hcontent, Hcit.
  f_equal. destruct cs as [|c cs]; [done|].
  cbn [mbind Completion_bind isArray elements andb].
  rewrite bool_decide_true by (simpl; lia).
  unfold add_string.
  destruct (ToString content) as [p|e]; [|reflexivity].
  cbn [mbind Completion_bind mret Completion_ret].
  rewrite forEach_citation_rendered.
  destruct (render_all (c :: cs)) as [rs|e] eqn:Hrs; [|reflexivity].
  destruct (render_all_cons_inv _ _ _ Hrs) as (s & ss & -> & _).
  cbn [mbind Completion_bind mret Completion_ret formatted].
  by rewrite !append_assoc.
Qed.

(** On string content and string citations (or none). *)
Lemma complete_strings messages model log response data content cs :
  network (request messages model) = Normal response ->
  ok response = true ->
  json response = Normal data ->
  first_choice_content data = Normal (JStr content) ->
  Get data "citations" = Normal (JArr (JStr <$> cs))
  \/ (cs = [] /\ exists v, Get data "citations" = Normal v
                           /\ isArray v = false) ->
  complete messages model log =
    (Normal (JStr (formatted content cs)), log ++ [request messages model]).
Proof.
  intros Hnet Hok Hjson Hcontent [Hcit|(-> & v & Hcit & Hv)].
  - destruct cs as [|c cs].
    + rewrite (complete_parsed _ _ _ _ _ _ _ Hnet Hok Hjson), Hcontent, Hcit.
      reflexivity.
    + rewrite (complete_rendered _ _ _ _ _ _ _ Hnet Hok Hjson Hcontent Hcit)
        by done.
      by rewrite render_all_strings.
  - rewrite (complete_parsed _ _ _ _ _ _ _ Hnet Hok Hjson), Hcontent, Hcit.
    cbn [mbind Completion_bind]. by rewrite Hv.
Qed.

(** X5. Every call of [performChatCompletion] sends exactly one request,
    whatever the outcome (no retry): a POST to the chat-completions URL
    carrying the bearer token, the model and the messages unchanged. *)
Theorem one_request_per_call messages model :
  exists sent,
    snd (run (complete messages model)) = [sent]
    /\ url sent = "https://api.perplexity.ai/chat/completions"
    /\ method sent = "POST"
    /\ headers sent = [("Content-Type", "application/json");
                       ("Authorization", "Bearer " +:+ PERPLEXITY_API_KEY)]
    /\ Effects.model (body sent) = model
    /\ Effects.messages (body sent) = messages.
Proof.
  exists (request messages model). split; [|done].
  unfold run. by rewrite complete_log.
Qed.


End WithEnvironment.
End UpstreamExtras.

(** ** The dispatcher end to end, and the registry *)

Module DispatcherExtras.
Import Js Effects Server Spec Derived StringFacts.
Import UpstreamProofs DispatcherProofs UpstreamExtras.

Section WithEnvironment.

Variable PERPLEXITY_API_KEY : string.
Variable network : FetchRequest -> Completion Response.

Abbreviation request := (completion_request PERPLEXITY_API_KEY).
Abbreviation complete := (performChatCompletion PERPLEXITY_API_KEY network).
Abbreviation body := (CallToolBody PERPLEXITY_API_KEY network).
Abbreviation handler := (CallToolHandler PERPLEXITY_API_KEY network).

Lemma Get_array_truthy (v : JsVal) (key : string) (l : list JsVal) :
  Get v key = Normal (JArr l) -> ToBoolean v = true.
Proof. destruct v; simpl; intros H; by try discriminate. Qed.

Lemma listed_iff_registered (tool : string) :
  tool ∈ (Registry.name <$> Registry.ListToolsHandler) <-> registered tool.
Proof.
  unfold registered. cbn [Registry.ListToolsHandler fmap list_fmap Registry.name
    Registry.PERPLEXITY_ASK_TOOL Registry.PERPLEXITY_RESEARCH_TOOL
    Registry.PERPLEXITY_REASON_TOOL].
  rewrite !elem_of_cons, elem_of_nil. tauto.
Qed.

(** The handler, once the tool is registered and [messages] is an array:
    the result is that of the upstream call. *)
Lemma handler_forwarded req l log :
  registered (name req) ->
  Get (arguments req) "messages" = Normal (JArr l) ->
  handler req log =
    match complete (JArr l) (model_for (name req)) log with
    | (Normal result, log') => (Normal (text_response result false), log')
    | (Abrupt e, log') => (Normal (error_response (message_of e)), log')
    end.
Proof.
  intros Hname Hget.
  rewrite handler_of_body, body_registered
    by eauto using Get_array_truthy.
  unfold mbind, M_bind, lift. rewrite Hget. simpl.
  by destruct (complete _ _ _) as [[result|e] log'].
Qed.

(** X1. The registry and the dispatcher agree on the tool names: once
    arguments are present, a call is answered "Unknown tool" exactly when
    its name is not among the names [ListTools] returns. *)
Theorem listed_tools_are_routed (req : CallToolParams) :
  ToBoolean (arguments req) = true ->
  (name req ∈ (Registry.name <$> Registry.ListToolsHandler) <->
   fst (run (handler req)) <>
     Normal (text_response (JStr ("Unknown tool: " +:+ name req)) true)).
Proof.
  intros Hargs. rewrite listed_iff_registered. unfold run. split.
  - intros Hname. rewrite handler_of_body.
    destruct (body_cases PERPLEXITY_API_KEY network req []) as
      [Hno|_ Hunknown|m _ _ _ _|m e _ _ _ _ _|m result _ _ _ _ _];
      cbn [fst]; done.
  - intros Hrouted. destruct (registered_dec (name req)) as [|Hname]; [done|].
    exfalso. apply Hrouted.
    by rewrite handler_of_body, body_unknown.
Qed.

(** X2. A tool call makes at most one upstream call.  It makes exactly one
    when the tool is registered and [messages] is an array, and then
    sends the caller's messages unchanged with the tool's model; in every
    other case it makes none. *)
Theorem handler_upstream_calls (req : CallToolParams) :
  (forall l,
      registered (name req) ->
      Get (arguments req) "messages" = Normal (JArr l) ->
      snd (run (handler req)) = [request (JArr l) (model_for (name req))])
  /\ (~ registered (name req)
      \/ (forall l, Get (arguments req) "messages" <> Normal (JArr l)) ->
      snd (run (handler req)) = [])
  /\ model_for "perplexity_ask" = "sonar-pro"
  /\ model_for "perplexity_research" = "sonar-deep-research"
  /\ model_for "perplexity_reason" = "sonar-reasoning-pro".
Proof.
  split; [|split; [|done]].
  - intros l Hname Hget. unfold run.
    rewrite (handler_forwarded _ _ _ Hname Hget).
    pose proof (complete_log PERPLEXITY_API_KEY network (JArr l)
                  (model_for (name req)) []) as Hlog.
    by destruct (complete _ _ _) as [[result|e] log'].
  - intros Hnone. unfold run. rewrite handler_of_body.
    destruct (body_cases PERPLEXITY_API_KEY network req []) as
      [_|_ _|m _ _ _ _|m e _ Hname Hget Harr _|m result _ Hname Hget Harr _];
      try done.
    + destruct m; try discriminate. destruct Hnone as [|Hnone]; [done|].
      by destruct (Hnone elems).
    + destruct m; try discriminate. destruct Hnone as [|Hnone]; [done|].
      by destruct (Hnone elems).
Qed.

(** X3. End to end, on success: for a registered tool called with an
    array of messages, when the upstream answers with a string content
    and string citations (or none), the response is [isError:false] with
    the content, followed by the numbered citations when there are some,
    after exactly one upstream call. *)
Theorem tool_call_success (req : CallToolParams) l response data content cs :
  registered (name req) ->
  Get (arguments req) "messages" = Normal (JArr l) ->
  network (request (JArr l) (model_for (name req))) = Normal response ->
  ok response = true ->
  json response = Normal data ->
  first_choice_content data = Normal (JStr content) ->
  Get data "citations" = Normal (JArr (JStr <$> cs))
  \/ (cs = [] /\ exists v, Get data "citations" = Normal v
                           /\ isArray v = false) ->
  run (handler req) =
    (Normal (text_response (JStr (formatted content cs)) false),
     [request (JArr l) (model_for (name req))]).
Proof.
  intros Hname Hget Hnet Hok Hjson Hcontent Hcit. unfold run.
  rewrite (handler_forwarded _ _ _ Hname Hget).
  by rewrite (complete_strings _ _ _ _ _ _ _ _ _ Hnet Hok Hjson Hcontent Hcit).
Qed.

(** X4. End to end, on failure: for a registered tool called with an
    array of messages, each upstream failure comes back as an
    [isError:true] response whose text is "Error: " followed by the
    failure's own message (network, HTTP status with body or placeholder,
    JSON parse), after exactly one upstream call. *)
Theorem tool_call_failure (req : CallToolParams) l :
  registered (name req) ->
  Get (arguments req) "messages" = Normal (JArr l) ->
  (forall e,
      network (request (JArr l) (model_for (name req))) = Abrupt e ->
      run (handler req) =
        (Normal (error_response
                   ("Network error while calling Perplexity API: "
                    +:+ String_of_thrown e)),
         [request (JArr l) (model_for (name req))]))
  /\ (forall response,
        network (request (JArr l) (model_for (name req))) = Normal response ->
        ok response = false ->
        run (handler req) =
          (Normal (error_response
                     ("Perplexity API error: " +:+ pretty (status response)
                      +:+ " " +:+ statusText response +:+ LF
                      +:+ error_body response)),
           [request (JArr l) (model_for (name req))]))
  /\ (forall response e,
        network (request (JArr l) (model_for (name req))) = Normal response ->
        ok response = true ->
        json response = Abrupt e ->
        run (handler req) =
          (Normal (error_response
                     ("Failed to parse JSON response from Perplexity API: "
                      +:+ String_of_thrown e)),
           [request (JArr l) (model_for (name req))])).
Proof.
  intros Hname Hget. unfold run. repeat split.
  - intros e Hnet. rewrite (handler_forwarded _ _ _ Hname Hget).
    by rewrite (complete_network_failure _ _ _ _ _ _ Hnet).
  - intros response Hnet Hok. rewrite (handler_forwarded _ _ _ Hname Hget).
    by rewrite (complete_http_failure _ _ _ _ _ _ Hnet Hok).
  - intros response e Hnet Hok Hjson.
    rewrite (handler_forwarded _ _ _ Hname Hget).
    by rewrite (complete_json_failure _ _ _ _ _ _ _ Hnet Hok Hjson).
Qed.

End WithEnvironment.
End DispatcherExtras.

(** ** Session lifecycle and the HTTP listener *)

Module SessionExtras.
Import Streamable HttpServer.





(** Both invariants survive every event. *)
Lemma http_step_invariant (st : State) (ev : HttpEvent) :
  handles_paired st /\ sessions_backed st ->
  handles_paired (http_step st ev) /\ sessions_backed (http_step st ev).
Proof.
  intros [Hpaired Hbacked].
  destruct ev as [pathname req|t sid|t sid]; cbn [http_step].
  - unfold on_request. case_bool_decide; [|case_bool_decide]; cbn [fst].
    + split.
      * intros t srv Ht. destruct (Hpaired t srv Ht). simpl. split; [done|lia].
      * exact Hbacked.
    + unfold handleStreamable.
      destruct (truthy (mcp_session_id req)).
      { by destruct (streamableSessions st !! _). }
      case_bool_decide; [|done]. cbn [fst]. split.
      * intros t srv. simpl.
        destruct (decide (t = S (next_handle st))) as [->|Hne].
        -- rewrite lookup_insert_eq. intros [= <-]. split; [done|lia].
        -- rewrite lookup_insert_ne by done. intros Ht.
           destruct (Hpaired t srv Ht). split; [done|lia].
      * intros id s Hs. simpl in *.
        pose proof (Hbacked id s Hs) as Ht.
        destruct (Hpaired _ _ Ht) as [_ Hlt].
        rewrite lookup_insert_ne by lia. done.
    + done.
  - simpl. destruct (transports st !! t) as [srv|] eqn:Ht; [|done]. split.
    + exact Hpaired.
    + intros id s. simpl. unfold onsessioninitialized.
      destruct (decide (sid = id)) as [->|Hne].
      * rewrite lookup_insert_eq. by intros [= <-].
      * rewrite lookup_insert_ne by done. apply Hbacked.
  - simpl. destruct (transports st !! t) as [srv|] eqn:Ht; [|done]. split.
    + exact Hpaired.
    + intros id s. simpl. unfold onclose.
      destruct (truthy sid); [|apply Hbacked].
      intros H. apply lookup_delete_Some in H as [_ H].
      exact (Hbacked _ _ H).
Qed.

Lemma http_run_invariant (evs : list HttpEvent) (st : State) :
  handles_paired st /\ sessions_backed st ->
  handles_paired (http_run st evs) /\ sessions_backed (http_run st evs).
Proof.
  revert st. induction evs as [|ev evs IH]; intros st Hinv; [done|].
  simpl. apply IH. by apply http_step_invariant.
Qed.

Lemma initial_invariant : handles_paired initial /\ sessions_backed initial.
Proof. split; intros ? ? H; simpl in H; by rewrite lookup_empty in H. Qed.


(** X8. Sessions do not interfere: storing or removing the session of one
    id leaves the entry of every other id as it was, and the close of a
    transport that never got a session id removes nothing. *)
Theorem sessions_isolated (st : State) (t : nat) (id id' : string) :
  id' <> id ->
  streamableSessions (step st (SessionInitialized t id)) !! id'
  = streamableSessions st !! id'
  /\ streamableSessions (step st (Closed t (Some id))) !! id'
     = streamableSessions st !! id'
  /\ streamableSessions (step st (Closed t None)) = streamableSessions st.
Proof.
  intros Hne. repeat split; simpl.
  - destruct (transports st !! t); [|done]. simpl.
    unfold onsessioninitialized. by rewrite lookup_insert_ne.
  - destruct (transports st !! t); [|done]. simpl.
    unfold onclose. destruct (truthy (Some id)); [|done].
    simpl. by rewrite lookup_delete_ne.
  - by destruct (transports st !! t).
Qed.


(** X10. Two first POSTs create two independent sessions: each gets its
    own transport and its own server instance, and after both handshakes
    (with different ids) both sessions are stored, each under its id with
    its own pair. *)
Theorem two_first_posts (st : State) (req1 req2 : IncomingMessage)
    (id1 id2 : string) :
  truthy (mcp_session_id req1) = false -> method req1 = "POST" ->
  truthy (mcp_session_id req2) = false -> method req2 = "POST" ->
  id1 <> id2 ->
  exists s1 s2,
    snd (handleStreamable st req1) = Initialising s1
    /\ snd (handleStreamable (fst (handleStreamable st req1)) req2)
       = Initialising s2
    /\ transport s1 <> transport s2
    /\ server s1 <> server s2
    /\ streamableSessions
         (run_events st [Request req1; Request req2;
                         SessionInitialized (transport s1) id1;
                         SessionInitialized (transport s2) id2]) !! id1
       = Some s1
    /\ streamableSessions
         (run_events st [Request req1; Request req2;
                         SessionInitialized (transport s1) id1;
                         SessionInitialized (transport s2) id2]) !! id2
       = Some s2.
Proof.
  intros Hnone1 Hpost1 Hnone2 Hpost2 Hne.
  exists {| transport := S (next_handle st); server := next_handle st |},
    {| transport := S (S (S (next_handle st)));
       server := S (S (next_handle st)) |}.
  unfold run_events. cbn [foldl step].
  unfold handleStreamable.
  rewrite Hnone1, Hnone2, Hpost1, Hpost2. simpl.
  rewrite lookup_insert_ne by lia. rewrite lookup_insert_eq. simpl.
  rewrite lookup_insert_eq. simpl. unfold onsessioninitialized.
  rewrite lookup_insert_ne by done. rewrite !lookup_insert_eq.
  repeat split; lia.
Qed.

(** X11. In every state the listener can reach, a stored session pairs a
    transport the handler created with the server instance created in
    the same request; no server instance serves two transports, so two
    stored sessions share a server only if they share the transport; and
    a new SSE connection gets a server and a transport that no session
    uses. *)
Theorem reachable_sessions_backed (evs : list HttpEvent) :
  sessions_backed (http_run initial evs)
  /\ (forall t1 t2 srv,
        transports (http_run initial evs) !! t1 = Some srv ->
        transports (http_run initial evs) !! t2 = Some srv ->
        t1 = t2)
  /\ (forall id1 id2 s1 s2,
        streamableSessions (http_run initial evs) !! id1 = Some s1 ->
        streamableSessions (http_run initial evs) !! id2 = Some s2 ->
        server s1 = server s2 ->
        s1 = s2)
  /\ (forall id s,
        streamableSessions (http_run initial evs) !! id = Some s ->
        transport s <> snd (snd (handleSSE (http_run initial evs)))
        /\ server s <> fst (snd (handleSSE (http_run initial evs)))).
Proof.
  destruct (http_run_invariant evs initial initial_invariant)
    as [Hpaired Hbacked].
  split; [exact Hbacked|]. split; [|split].
  - intros t1 t2 srv H1 H2.
    destruct (Hpaired _ _ H1) as [-> _]. by destruct (Hpaired _ _ H2) as [-> _].
  - intros id1 id2 [t1 srv1] [t2 srv2] H1 H2. simpl. intros <-.
    apply Hbacked, Hpaired in H1 as [H1 _].
    apply Hbacked, Hpaired in H2 as [H2 _].
    simpl in *. congruence.
  - intros id s Hs. apply Hbacked, Hpaired in Hs as [Heq Hlt].
    simpl. lia.
Qed.


End SessionExtras.

(** ** The command line of the two entry points *)

Module EntryExtras.
Import Js Entry EntryProofs.

Section WithParseInt.

Variable parseInt10 : string -> string.

Abbreviation js_loop := (EntryJs.parseArgs_loop parseInt10).
Abbreviation ts_loop := (EntryTs.parseArgs_loop parseInt10).

(** Both loops treat [--port] alike, and [--stdio] moves neither on. *)
Lemma loops_same_port (n : nat) (args : list string) (o o' : Options) :
  length args <= n ->
  port o = port o' ->
  port (js_loop args o) = port (ts_loop args o').
Proof.
  revert args o o'. induction n as [|n IH]; intros args o o' Hlen Hport.
  - destruct args; [done|simpl in Hlen; lia].
  - destruct args as [|arg rest]; [done|]. simpl in *.
    destruct (bool_decide (arg = "--port") && bool_decide (0 < length rest)).
    + destruct rest as [|next rest']; [done|].
      apply IH; [simpl in Hlen; lia|done].
    + case_bool_decide; apply IH; try lia; done.
Qed.

Lemma ts_loop_port_kept (args : list string) (o : Options) :
  "--port" ∉ args -> port (ts_loop args o) = port o.
Proof.
  revert o. induction args as [|arg rest IH]; intros o Hport; [done|].
  apply not_elem_of_cons in Hport as [Hne Hrest]. simpl.
  rewrite bool_decide_false by done. simpl.
  case_bool_decide; by rewrite IH.
Qed.

(** Arguments before the first [--port] only decide the [stdio] option. *)
Lemma ts_loop_skip (pre : list string) (o : Options) :
  "--port" ∉ pre ->
  exists o', port o' = port o
             /\ forall rest, ts_loop (pre ++ rest) o = ts_loop rest o'.
Proof.
  revert o. induction pre as [|arg pre IH]; intros o Hport; [by exists o|].
  apply not_elem_of_cons in Hport as [Hne Hpre].
  destruct (IH {| port := port o; stdio := JBool true |} Hpre)
    as (o1 & Hport1 & Hskip1).
  destruct (IH o Hpre) as (o2 & Hport2 & Hskip2).
  destruct (decide (arg = "--stdio")) as [Harg|Harg].
  - exists o1. split; [done|]. intros rest. simpl.
    rewrite bool_decide_false by done. simpl.
    rewrite bool_decide_true by done. apply Hskip1.
  - exists o2. split; [done|]. intros rest. simpl.
    rewrite bool_decide_false by done. simpl.
    rewrite bool_decide_false by done. apply Hskip2.
Qed.

Lemma js_loop_skip (pre rest : list string) (o : Options) :
  "--port" ∉ pre -> js_loop (pre ++ rest) o = js_loop rest o.
Proof.
  induction pre as [|arg pre IH]; intros Hport; [done|].
  apply not_elem_of_cons in Hport as [Hne Hpre]. simpl.
  rewrite bool_decide_false by done. simpl. by apply IH.
Qed.

(** X13. The two variants always read the same port from the command
    line: they differ only in the [stdio] option. *)
Theorem variants_read_same_port (argv : list string) :
  port (EntryJs.parseArgs parseInt10 argv)
  = port (EntryTs.parseArgs parseInt10 argv).
Proof.
  unfold EntryJs.parseArgs, EntryTs.parseArgs.
  by apply (loops_same_port (length (drop 2 argv))).
Qed.


(** X15. A single [--port v], wherever it stands among the arguments,
    sets the port to [parseInt(v, 10)] in both variants; [v] is consumed
    and never read as a flag. *)
Theorem single_port_flag (argv0 argv1 v : string) (pre post : list string) :
  "--port" ∉ pre ->
  "--port" ∉ post ->
  port (EntryJs.parseArgs parseInt10
          (argv0 :: argv1 :: pre ++ "--port" :: v :: post))
  = JNum (parseInt10 v)
  /\ port (EntryTs.parseArgs parseInt10
             (argv0 :: argv1 :: pre ++ "--port" :: v :: post))
     = JNum (parseInt10 v).
Proof.
  intros Hpre Hpost.
  unfold EntryJs.parseArgs, EntryTs.parseArgs. cbn [drop].
  rewrite drop_0. split.
  - rewrite js_loop_skip by done. simpl.
    by rewrite js_loop_without_port.
  - destruct (ts_loop_skip pre no_options Hpre) as (o' & _ & ->). simpl.
    by rewrite ts_loop_port_kept.
Qed.

(** X16. A [--port] that is the last argument has no value to read and
    is ignored by both variants. *)
Theorem trailing_port_ignored (argv : list string) :
  2 <= length argv ->
  "--port" ∉ drop 2 argv ->
  EntryJs.runServer parseInt10 (argv ++ ["--port"])
  = EntryJs.runServer parseInt10 argv
  /\ EntryTs.runServer parseInt10 (argv ++ ["--port"])
     = EntryTs.runServer parseInt10 argv.
Proof.
  intros Hlen Hport.
  unfold EntryJs.runServer, EntryTs.runServer, EntryJs.parseArgs,
    EntryTs.parseArgs.
  rewrite drop_app_le by done. cbv zeta. split.
  - rewrite js_loop_skip by done.
    by rewrite (js_loop_without_port _ (drop 2 argv)).
  - destruct (ts_loop_skip (drop 2 argv) no_options Hport)
      as (o' & _ & Hskip).
    assert (Hend : ts_loop (drop 2 argv) no_options = o').
    { rewrite <- (app_nil_r (drop 2 argv)). by rewrite Hskip. }
    rewrite Hskip, Hend. reflexivity.
Qed.



End WithParseInt.
End EntryExtras.

(** ** The test client *)

Module TestClientExtras.
Import Js TestClient.

Lemma createMessages_ids (calls : list (string * JsVal)) (messageId : N) :
  (messageId + N.of_nat (length calls) <= 2 ^ 53)%N ->
  id <$> fst (createMessages calls messageId)
  = (fun k => (messageId + N.of_nat (S k))%N) <$> seq 0 (length calls)
  /\ snd (createMessages calls messageId)
     = (messageId + N.of_nat (length calls))%N.
Proof.
  revert messageId.
  induction calls as [|[verb params] calls IH]; intros messageId Hbound.
  - simpl. split; [done|lia].
  - cbn [length] in Hbound.
    assert (Hstep : increment messageId = (messageId + 1)%N).
    { unfold increment.
      destruct (N.ltb_spec messageId (2 ^ 53)); [done|lia]. }
    destruct (IH (messageId + 1)%N) as [Hids Hcount]; [lia|].
    cbn [createMessages createMessage fst snd id length seq].
    rewrite Hstep, !fmap_cons. cbn [id]. rewrite Hids, Hcount. split.
    + f_equal.
      rewrite <- fmap_S_seq, <- list_fmap_compose.
      apply list_fmap_ext. intros _ k _. simpl. lia.
    + lia.
Qed.

(** X18. Message ids are consecutive and never repeat: as long as the
    counter stays within 2^53, successive calls of [createMessage] from
    counter [n] carry the ids [n+1], [n+2], ... in order, all different,
    and keep the methods they were given. *)
Theorem message_ids_consecutive (calls : list (string * JsVal))
    (messageId : N) :
  (messageId + N.of_nat (length calls) <= 2 ^ 53)%N ->
  id <$> fst (createMessages calls messageId)
  = (fun k => (messageId + N.of_nat (S k))%N) <$> seq 0 (length calls)
  /\ NoDup (id <$> fst (createMessages calls messageId))
  /\ method <$> fst (createMessages calls messageId) = fst <$> calls
  /\ snd (createMessages calls messageId)
     = (messageId + N.of_nat (length calls))%N.
Proof.
  intros Hbound. destruct (createMessages_ids calls messageId Hbound)
    as [Hids Hcount].
  split; [done|]. split; [|split; [|done]].
  - rewrite Hids. apply NoDup_fmap_2; [|apply NoDup_seq].
    intros j k H. lia.
  - clear. revert messageId.
    induction calls as [|[verb params] calls IH]; intros messageId; [done|].
    cbn [createMessages createMessage fst snd]. rewrite !fmap_cons.
    by rewrite IH.
Qed.

End TestClientExtras.

(** ** The further properties at concrete inputs *)

Module ExtraWitnesses.
Import Js Effects Server Spec Derived Examples Samples.

Lemma listed_tools_are_routed_witness :
  fst (run (CallToolHandler api_key offline (call "perplexity_reason" hello)))
  <> Normal (text_response (JStr "Unknown tool: perplexity_reason") true).
Proof.
  apply (DispatcherExtras.listed_tools_are_routed api_key offline
           (call "perplexity_reason" hello)); [reflexivity|].
  do 2 apply list_elem_of_further. apply list_elem_of_here.
Defined.

Lemma handler_upstream_calls_witness :
  snd (run (CallToolHandler api_key offline
              (call "perplexity_research" hello)))
  = [completion_request api_key hello "sonar-deep-research"]
  /\ snd (run (CallToolHandler api_key offline
                 (call "perplexity_research" (JStr "hello"))))
     = [].
Proof.
  split.
  - apply (proj1 (DispatcherExtras.handler_upstream_calls api_key offline
                    (call "perplexity_research" hello))).
    + right. left. reflexivity.
    + reflexivity.
  - apply (proj1 (proj2 (DispatcherExtras.handler_upstream_calls api_key
                           offline
                           (call "perplexity_research" (JStr "hello"))))).
    right. intros l H. discriminate H.
Defined.

Lemma tool_call_success_witness :
  run (CallToolHandler api_key (answering cited) ask_hello)
  = (Normal (text_response
               (JStr ("C" +:+ LF +:+ LF +:+ "Citations:" +:+ LF
                      +:+ "[1] a" +:+ LF +:+ "[2] b" +:+ LF))
               false),
     [completion_request api_key hello "sonar-pro"]).
Proof.
  apply (DispatcherExtras.tool_call_success api_key (answering cited)
           ask_hello _ (answer cited) cited "C" ["a"; "b"]);
    try reflexivity.
  - left. reflexivity.
  - left. reflexivity.
Defined.

Lemma tool_call_failure_witness :
  run (CallToolHandler api_key offline ask_hello)
  = (Normal (error_response
               ("Network error while calling Perplexity API: "
                +:+ "TypeError: fetch failed")),
     [completion_request api_key hello "sonar-pro"])
  /\ run (CallToolHandler api_key (fun _ => Normal unauthorized) ask_hello)
     = (Normal (error_response
                  ("Perplexity API error: 401 Unauthorized" +:+ LF
                   +:+ "invalid api key")),
        [completion_request api_key hello "sonar-pro"]).
Proof.
  split.
  - apply (proj1 (DispatcherExtras.tool_call_failure api_key offline
                    ask_hello _ (or_introl eq_refl) eq_refl)
                 (TypeError "fetch failed")).
    reflexivity.
  - apply (proj1 (proj2 (DispatcherExtras.tool_call_failure api_key
                           (fun _ => Normal unauthorized)
                           ask_hello _ (or_introl eq_refl) eq_refl))
                 unauthorized); reflexivity.
Defined.


Import Streamable HttpServer.


Lemma sessions_isolated_witness :
  streamableSessions
    (step (run_events initial [Request first_post;
                               SessionInitialized 1 "6f1c"])
          (Closed 1 (Some "0a2b"))) !! "6f1c"
  = Some {| transport := 1; server := 0 |}.
Proof.
  destruct (SessionExtras.sessions_isolated
              (run_events initial [Request first_post;
                                   SessionInitialized 1 "6f1c"])
              1 "0a2b" "6f1c") as (_ & Hclose & _); [discriminate|].
  rewrite Hclose. reflexivity.
Defined.


Lemma two_first_posts_witness :
  exists s1 s2,
    transport s1 <> transport s2
    /\ server s1 <> server s2
    /\ streamableSessions
         (run_events initial [Request first_post; Request first_post;
                              SessionInitialized (transport s1) "6f1c";
                              SessionInitialized (transport s2) "0a2b"])
       !! "6f1c" = Some s1
    /\ streamableSessions
         (run_events initial [Request first_post; Request first_post;
                              SessionInitialized (transport s1) "6f1c";
                              SessionInitialized (transport s2) "0a2b"])
       !! "0a2b" = Some s2.
Proof.
  destruct (SessionExtras.two_first_posts initial first_post first_post
              "6f1c" "0a2b")
    as (s1 & s2 & _ & _ & Ht & Hs & H1 & H2);
    [reflexivity|reflexivity|reflexivity|reflexivity|discriminate|].
  exists s1, s2. auto.
Defined.

Lemma reachable_sessions_backed_witness :
  1 <> snd (snd (handleSSE (http_run initial one_session)))
  /\ 0 <> fst (snd (handleSSE (http_run initial one_session))).
Proof.
  destruct (SessionExtras.reachable_sessions_backed one_session)
    as (_ & _ & _ & Hfresh).
  apply (Hfresh "6f1c" {| transport := 1; server := 0 |}). reflexivity.
Defined.


Import Entry.

Lemma single_port_flag_witness :
  port (EntryJs.parseArgs parseInt10_small
          ["node"; "dist/index.js"; "--stdio"; "--port"; "3000"])
  = JNum "3000"
  /\ port (EntryTs.parseArgs parseInt10_small
             ["node"; "dist/index.js"; "--stdio"; "--port"; "3000"])
     = JNum "3000".
Proof.
  apply (EntryExtras.single_port_flag parseInt10_small "node" "dist/index.js"
           "3000" ["--stdio"] []).
  - intros [H|H]%elem_of_cons; [discriminate H|]. by apply elem_of_nil in H.
  - apply not_elem_of_nil.
Defined.

Lemma trailing_port_ignored_witness :
  EntryJs.runServer parseInt10_small ["node"; "dist/index.js"; "--port"]
  = EntryJs.runServer parseInt10_small ["node"; "dist/index.js"]
  /\ EntryTs.runServer parseInt10_small ["node"; "dist/index.js"; "--port"]
     = EntryTs.runServer parseInt10_small ["node"; "dist/index.js"].
Proof.
  apply (EntryExtras.trailing_port_ignored parseInt10_small
           ["node"; "dist/index.js"]).
  - simpl. lia.
  - apply not_elem_of_nil.
Defined.


Lemma message_ids_consecutive_witness :
  TestClient.id <$> fst (TestClient.createMessages first_calls 0%N)
  = [1%N; 2%N].
Proof.
  destruct (TestClientExtras.message_ids_consecutive first_calls 0%N)
    as (Hids & _).
  - simpl. lia.
  - rewrite Hids. reflexivity.
Defined.

End ExtraWitnesses.
